(** * StudentGroupingSystem: criteria, survey aggregation and grouping

    A shallow embedding of [survey.py], [criterion.py] and [course.py],
    and of the groups, groupings and groupers of [grouper.py], which is not
    among the sources and is modelled from sections 4.3 and 4.4 of the
    specification.

    Modelling conventions.
    - Python values that can occur as the [content] of an [Answer] are
      [None], integers, booleans, strings and flat lists of these; the
      items of a list are hashable, so that [set(content)] is defined on
      every list.
    - Python's [==] on those values is [py_eq]: [True == 1] and [False == 0]
      hold as in Python, and the hash of a value agrees with it, so a [dict]
      or a [set] keyed by such values is a [gmap] / [gset] over [atom_key].
    - A Python [float] is modelled by an exact rational number ([Q]); two
      floats are compared with [==] on [Q]. Rounding, infinities and the
      [OverflowError] of converting an integer beyond the largest float
      are not modelled: a property that depends on them is stated under
      the hypothesis that keeps the float computation exact or the
      conversion defined ([exact_score], [float_exact],
      [weights_convertible]).
    - A Python [str] is modelled by a [string] with one [ascii] for each
      character, so the characters are those with a code below 256.
    - A call that can raise returns a [result]: [Ok v] or [Raise e]. *)

From Stdlib Require Import ZArith QArith Lqa Lia List String.
From stdpp Require Import base decidable option list numbers countable
  strings gmap sorting.

Open Scope Z_scope.

(** ** Exceptions and results *)

Inductive exn : Set :=
| InvalidAnswerError
| TypeError
| ZeroDivisionError
| KeyError.

Inductive result (A : Type) : Type :=
| Ok (a : A)
| Raise (e : exn).

Arguments Ok {A} a.
Arguments Raise {A} e.

#[global] Instance result_ret : MRet result := fun A a => Ok a.

#[global] Instance result_bind : MBind result := fun A B k r =>
  match r with
  | Ok a => k a
  | Raise e => Raise e
  end.

(** [try: r except InvalidAnswerError: h] *)
Definition catch_invalid {A : Type} (r : result A) (h : A) : result A :=
  match r with
  | Raise InvalidAnswerError => Ok h
  | _ => r
  end.

(** ** Python values *)

Inductive atom : Set :=
| ANone
| AInt (z : Z)
| ABool (b : bool)
| AStr (s : string).

Inductive value : Set :=
| VAtom (a : atom)
| VList (l : list atom).

(** The class of a value under [==] and [hash]: a boolean is the integer
    0 or 1, everything else is itself. *)
Inductive key : Set :=
| KNone
| KInt (z : Z)
| KStr (s : string).

Definition atom_key (a : atom) : key :=
  match a with
  | ANone => KNone
  | AInt z => KInt z
  | ABool b => KInt (if b then 1 else 0)
  | AStr s => KStr s
  end.

#[global] Instance key_eq_dec : EqDecision key.
Proof. solve_decision. Defined.

Definition key_enc (k : key) : unit + (Z + string) :=
  match k with
  | KNone => inl tt
  | KInt z => inr (inl z)
  | KStr s => inr (inr s)
  end.

Definition key_dec (x : unit + (Z + string)) : key :=
  match x with
  | inl _ => KNone
  | inr (inl z) => KInt z
  | inr (inr s) => KStr s
  end.

#[global] Instance key_countable : Countable key.
Proof. apply (inj_countable' key_enc key_dec). by intros []. Defined.

Definition atom_eqb (a b : atom) : bool := bool_decide (atom_key a = atom_key b).

(** [x == y] *)
Definition py_eq (x y : value) : bool :=
  match x, y with
  | VAtom a, VAtom b => atom_eqb a b
  | VList l, VList m => bool_decide (map atom_key l = map atom_key m)
  | _, _ => false
  end.

(** [x in lst] *)
Definition py_in (x : value) (lst : list value) : bool :=
  existsb (fun o => py_eq o x) lst.

(** [set(lst)] for a list of hashable items *)
Definition py_set (l : list atom) : gset key := list_to_set (map atom_key l).

(** [float(n)] for an [int] and for a [len] *)
Definition float_of_int (z : Z) : Q := inject_Z z.
Definition float_of_len (n : nat) : Q := inject_Z (Z.of_nat n).

(** [x / y] on floats *)
Definition py_div (x y : Q) : result Q :=
  if Qeq_bool y 0 then Raise ZeroDivisionError else Ok (x / y)%Q.

(** ** survey.py: answers and questions *)

Record Answer : Set := mkAnswer { content : value }.

(** The four concrete question classes.  [YesNoQuestion] is the subclass of
    [MultipleChoiceQuestion] with options [[True, False]] and its own
    [validate_answer]. *)
Inductive Question : Set :=
| MultipleChoice (id_ : Z) (text : string) (options : list value)
| Numeric (id_ : Z) (text : string) (min_ max_ : Z)
| YesNo (id_ : Z) (text : string)
| Checkbox (id_ : Z) (text : string) (options : list value).

Definition question_id (q : Question) : Z :=
  match q with
  | MultipleChoice i _ _ | Numeric i _ _ _ | YesNo i _ | Checkbox i _ _ => i
  end.

Definition question_text (q : Question) : string :=
  match q with
  | MultipleChoice _ t _ | Numeric _ t _ _ | YesNo _ t | Checkbox _ t _ => t
  end.

Module MultipleChoiceQuestion.
(** [answer.content in self._options] *)
Definition validate_answer (_options : list value) (answer : Answer) : bool :=
  py_in (content answer) _options.

Definition get_similarity (answer1 answer2 : Answer) : result Q :=
  if py_eq (content answer1) (content answer2) then Ok 1%Q else Ok 0%Q.
End MultipleChoiceQuestion.

Module NumericQuestion.
(** [isinstance(content, int) and not isinstance(content, bool) and
    self._min <= content <= self._max] *)
Definition validate_answer (_min _max : Z) (answer : Answer) : bool :=
  match content answer with
  | VAtom (AInt z) => (_min <=? z) && (z <=? _max)
  | _ => false
  end.

(** The operand of an integer subtraction: [int] and [bool] have one,
    [None], [str] and [list] raise [TypeError]. *)
Definition as_int (v : value) : result Z :=
  match v with
  | VAtom (AInt z) => Ok z
  | VAtom (ABool b) => Ok (if b then 1 else 0)
  | _ => Raise TypeError
  end.

Definition get_similarity (_min _max : Z) (answer1 answer2 : Answer)
  : result Q :=
  c1 ← as_int (content answer1);
  c2 ← as_int (content answer2);
  let diff := Z.abs (c1 - c2) in
  let num_range := _max - _min in
  r ← py_div (float_of_int diff) (float_of_int num_range);
  Ok (1 - r)%Q.
End NumericQuestion.

Module YesNoQuestion.
(** [isinstance(answer.content, bool)] *)
Definition validate_answer (answer : Answer) : bool :=
  match content answer with
  | VAtom (ABool _) => true
  | _ => false
  end.
End YesNoQuestion.

Module CheckboxQuestion.
Definition is_str (a : atom) : bool :=
  match a with AStr _ => true | _ => false end.

Definition validate_answer (_options : list value) (answer : Answer) : bool :=
  match content answer with
  | VList l =>
      if (length l =? 0)%nat then false
      else if negb (length l =? size (py_set l))%nat then false
      else forallb (fun item => is_str item && py_in (VAtom item) _options) l
  | VAtom _ => false
  end.

(** [set(content)]: the items of a list, the characters of a string;
    [None], [int] and [bool] are not iterable. *)
Definition set_of (v : value) : result (gset key) :=
  match v with
  | VList l => Ok (py_set l)
  | VAtom (AStr s) =>
      Ok (py_set (map (fun c => AStr (String c EmptyString))
                      (list_ascii_of_string s)))
  | VAtom _ => Raise TypeError
  end.

Definition get_similarity (answer1 answer2 : Answer) : result Q :=
  set1 ← set_of (content answer1);
  set2 ← set_of (content answer2);
  let union := set1 ∪ set2 in
  if (size union =? 0)%nat then Ok 1%Q
  else
    let inter := set1 ∩ set2 in
    py_div (float_of_len (size inter)) (float_of_len (size union)).
End CheckboxQuestion.

(** Dynamic dispatch on the class of the question. *)
Definition validate_answer (q : Question) (answer : Answer) : bool :=
  match q with
  | MultipleChoice _ _ opts => MultipleChoiceQuestion.validate_answer opts answer
  | Numeric _ _ lo hi => NumericQuestion.validate_answer lo hi answer
  | YesNo _ _ => YesNoQuestion.validate_answer answer
  | Checkbox _ _ opts => CheckboxQuestion.validate_answer opts answer
  end.

Definition get_similarity (q : Question) (answer1 answer2 : Answer) : result Q :=
  match q with
  | MultipleChoice _ _ _ | YesNo _ _ =>
      MultipleChoiceQuestion.get_similarity answer1 answer2
  | Numeric _ _ lo hi => NumericQuestion.get_similarity lo hi answer1 answer2
  | Checkbox _ _ _ => CheckboxQuestion.get_similarity answer1 answer2
  end.

(** [Answer.is_valid] *)
Definition is_valid (self : Answer) (question : Question) : bool :=
  validate_answer question self.

(** The documented preconditions of the constructors that the methods rely
    on: a numeric range is not empty or a single point ([min_ < max_]). *)
Definition question_pre (q : Question) : Prop :=
  match q with
  | Numeric _ _ lo hi => lo < hi
  | _ => True
  end.

(** ** criterion.py *)

Inductive Criterion : Set :=
| Homogeneous
| Heterogeneous
| LonelyMember.

(** [for ans in answers: if not ans.is_valid(question): raise
    InvalidAnswerError] *)
Fixpoint check_answers (question : Question) (answers : list Answer)
  : result unit :=
  match answers with
  | [] => Ok tt
  | ans :: rest =>
      if is_valid ans question then check_answers question rest
      else Raise InvalidAnswerError
  end.

Module HomogeneousCriterion.
(** The inner loop [for j in range(i + 1, len(answers))] at a fixed
    [answers[i]], on the state [(total, count)]. *)
Fixpoint inner_loop (question : Question) (ai : Answer) (rest : list Answer)
  (st : Q * nat) : result (Q * nat) :=
  match rest with
  | [] => Ok st
  | aj :: rest' =>
      s ← get_similarity question ai aj;
      inner_loop question ai rest' ((st.1 + s)%Q, S st.2)
  end.

(** The outer loop [for i in range(len(answers))]. *)
Fixpoint outer_loop (question : Question) (answers : list Answer)
  (st : Q * nat) : result (Q * nat) :=
  match answers with
  | [] => Ok st
  | ai :: rest =>
      st' ← inner_loop question ai rest st;
      outer_loop question rest st'
  end.

Definition score_answers (question : Question) (answers : list Answer)
  : result Q :=
  _ ← check_answers question answers;
  if (length answers =? 1)%nat then Ok 1%Q
  else
    st ← outer_loop question answers (0%Q, 0%nat);
    py_div st.1 (float_of_len st.2).
End HomogeneousCriterion.

Module HeterogeneousCriterion.
(** [1.0 - super().score_answers(question, answers)] *)
Definition score_answers (question : Question) (answers : list Answer)
  : result Q :=
  h ← HomogeneousCriterion.score_answers question answers;
  Ok (1 - h)%Q.
End HeterogeneousCriterion.

Module LonelyMemberCriterion.
(** [counts[ans.content] = counts.get(ans.content, 0) + 1]; a list is
    unhashable and cannot be a key. *)
Fixpoint count_loop (answers : list Answer) (counts : gmap key nat)
  : result (gmap key nat) :=
  match answers with
  | [] => Ok counts
  | ans :: rest =>
      match content ans with
      | VAtom a =>
          let k := atom_key a in
          count_loop rest (<[k := (default 0%nat (counts !! k) + 1)%nat]> counts)
      | VList _ => Raise TypeError
      end
  end.

(** [for freq in counts.values(): if freq == 1: return 0.0] *)
Definition has_unique (counts : gmap key nat) : bool :=
  existsb (fun kv => (kv.2 =? 1)%nat) (map_to_list counts).

Definition score_answers (question : Question) (answers : list Answer)
  : result Q :=
  _ ← check_answers question answers;
  if (length answers =? 1)%nat then Ok 0%Q
  else
    counts ← count_loop answers ∅;
    if has_unique counts then Ok 0%Q else Ok 1%Q.
End LonelyMemberCriterion.

Definition score_answers (c : Criterion) (question : Question)
  (answers : list Answer) : result Q :=
  match c with
  | Homogeneous => HomogeneousCriterion.score_answers question answers
  | Heterogeneous => HeterogeneousCriterion.score_answers question answers
  | LonelyMember => LonelyMemberCriterion.score_answers question answers
  end.


(** ** course.py *)

Module Student.
Record t : Set := mk {
  id : Z;
  name : string;
  _answers : gmap Z Answer
}.

(** [Student(id_, name)]; a non-empty [name] is asserted, which is a
    precondition here. *)
Definition init (id_ : Z) (name_ : string) : t := mk id_ name_ ∅.

(** [question.id in self._answers] *)
Definition has_answer (self : t) (question : Question) : bool :=
  bool_decide (question_id question ∈ dom (_answers self)).

(** [self._answers[question.id] = answer] *)
Definition set_answer (self : t) (question : Question) (answer : Answer) : t :=
  mk (id self) (name self) (<[question_id question := answer]> (_answers self)).

(** [self._answers.get(question.id)] *)
Definition get_answer (self : t) (question : Question) : option Answer :=
  _answers self !! question_id question.
End Student.

(** [sort_students(lst, attribute)] is [sorted(lst, key=...)] on one of
    the two public attributes of [Student], given as the strings ['id']
    and ['name']. *)
Inductive attribute : Set :=
| attr_id
| attr_name.

(** [getattr(x, attribute) <= getattr(y, attribute)]: integers by value,
    strings by code points. *)
Definition key_leb (a : attribute) (x y : Student.t) : bool :=
  match a with
  | attr_id => Student.id x <=? Student.id y
  | attr_name => String.leb (Student.name x) (Student.name y)
  end.

(** [sorted] is a stable sort: an element goes before the elements of the
    sorted rest that do not have a smaller key, all of which follow it in
    the input. *)
Fixpoint sorted_insert (a : attribute) (x : Student.t) (l : list Student.t)
  : list Student.t :=
  match l with
  | [] => [x]
  | y :: rest =>
      if key_leb a x y then x :: y :: rest
      else y :: sorted_insert a x rest
  end.

Definition sort_students (lst : list Student.t) (a : attribute)
  : list Student.t :=
  foldr (sorted_insert a) [] lst.

Module Course.
Record t : Set := mk {
  name : string;
  students : list Student.t
}.

Definition init (name_ : string) : t := mk name_ [].

(** [enroll_students] has no [return] with a value: the call evaluates to
    [None] on both paths.  The result is the course after the call and
    the value of the call. *)
Definition enroll_students (self : t) (students_ : list Student.t)
  : t * value :=
  let existing_ids : gset Z := list_to_set (map Student.id (students self)) in
  if existsb (fun student => bool_decide (Student.id student ∈ existing_ids))
       students_
  then (self, VAtom ANone)
  else (mk (name self) (students self ++ students_), VAtom ANone).

(** [tuple(sort_students(self.students, 'id'))] *)
Definition get_students (self : t) : list Student.t :=
  sort_students (students self) attr_id.
End Course.

(** ** grouper.py: groups and groupings *)

(** [grouper.py] is not among the sources: [Group] and [Grouping] follow
    section 4.3 of the specification. *)

Module Group.
(** Modelled from the spec: a group is the list of its members, fixed at
    construction. *)
Record t : Set := mk { _members : list Student.t }.

(** Modelled from the spec: the member count. *)
Definition len (self : t) : nat := length (_members self).

(** Modelled from the spec: the membership test, by student id. *)
Definition contains (self : t) (student : Student.t) : bool :=
  existsb (fun m => Student.id m =? Student.id student) (_members self).

(** Modelled from the spec: a copy of the member list. *)
Definition get_members (self : t) : list Student.t := _members self.
End Group.

Module Grouping.
(** Modelled from the spec: a grouping is the sequence of its groups, in
    insertion order. *)
Record t : Set := mk { _groups : list Group.t }.

(** Modelled from the spec: the grouping without groups. *)
Definition init : t := mk [].

(** Modelled from the spec: the number of groups. *)
Definition len (self : t) : nat := length (_groups self).

(** Modelled from the spec: the groups in insertion order. *)
Definition get_groups (self : t) : list Group.t := _groups self.

(** Modelled from the spec: [add_group] appends the group and answers
    [True] when none of its members is in a group already; otherwise it
    changes nothing and answers [False]. *)
Definition add_group (self : t) (group : Group.t) : t * bool :=
  if existsb (fun s => existsb (fun g => Group.contains g s) (_groups self))
       (Group._members group)
  then (self, false)
  else (mk (_groups self ++ [group]), true).
End Grouping.

(** ** survey.py: the survey *)

Module Survey.
Record t : Set := mk {
  _questions : gmap Z Question;
  _criteria : gmap Z Criterion;
  _weights : gmap Z Z
}.

(** The loop of [__init__] on the three dictionaries. *)
Fixpoint init_loop (questions : list Question) (self : t) : t :=
  match questions with
  | [] => self
  | q :: rest =>
      init_loop rest
        (mk (<[question_id q := q]> (_questions self))
            (<[question_id q := Homogeneous]> (_criteria self))
            (<[question_id q := 1]> (_weights self)))
  end.

Definition init (questions : list Question) : t :=
  init_loop questions (mk ∅ ∅ ∅).

(** [__len__] *)
Definition len (self : t) : nat := size (_questions self).

(** [__contains__] *)
Definition contains (self : t) (question : Question) : bool :=
  bool_decide (question_id question ∈ dom (_questions self)).

(** [sorted(self._questions)] *)
Definition sorted_ids (self : t) : list Z :=
  merge_sort Z.le (elements (dom (_questions self))).

(** [[self._questions[qid] for qid in sorted(self._questions)]] *)
Definition get_questions (self : t) : list Question :=
  omap (fun qid => _questions self !! qid) (sorted_ids self).

Definition py_getitem {V : Type} (d : gmap Z V) (k : Z) : result V :=
  match d !! k with
  | Some v => Ok v
  | None => Raise KeyError
  end.

Definition _get_criterion (self : t) (question : Question) : result Criterion :=
  py_getitem (_criteria self) (question_id question).

Definition _get_weight (self : t) (question : Question) : result Z :=
  py_getitem (_weights self) (question_id question).

Definition set_weight (self : t) (weight : Z) (question : Question) : t * bool :=
  if bool_decide (question_id question ∈ dom (_weights self))
  then (mk (_questions self) (_criteria self)
           (<[question_id question := weight]> (_weights self)), true)
  else (self, false).

Definition set_criterion (self : t) (criterion : Criterion)
  (question : Question) : t * bool :=
  if bool_decide (question_id question ∈ dom (_criteria self))
  then (mk (_questions self)
           (<[question_id question := criterion]> (_criteria self))
           (_weights self), true)
  else (self, false).

Fixpoint _get_ans (sts : list Student.t) (q : Question) : option (list Answer) :=
  match sts with
  | [] => Some []
  | s :: rest =>
      match Student.get_answer s q with
      | None => None
      | Some ans =>
          match _get_ans rest q with
          | None => None
          | Some answers => Some (ans :: answers)
          end
      end
  end.

(** The body of the [try] block from the [for] loop on: [qs] are the
    questions still to visit and [total] the running sum. *)
Fixpoint score_loop (self : t) (students : list Student.t)
  (qs : list Question) (total : Q) : result Q :=
  match qs with
  | [] => py_div total (float_of_len (size (_questions self)))
  | q :: rest =>
      match _get_ans students q with
      | None => Ok 0%Q
      | Some answers =>
          c ← _get_criterion self q;
          ans_scores ← score_answers c q answers;
          w ← _get_weight self q;
          score_loop self students rest (total + ans_scores * float_of_int w)%Q
      end
  end.

Definition score_students (self : t) (students : list Student.t) : result Q :=
  if (size (_questions self) =? 0)%nat then Ok 0%Q
  else catch_invalid (score_loop self students (get_questions self) 0%Q) 0%Q.

(** The loop of [score_grouping] on the running [total]. *)
Fixpoint grouping_loop (self : t) (groups : list Group.t) (total : Q)
  : result Q :=
  match groups with
  | [] => Ok total
  | g :: rest =>
      s ← score_students self (Group.get_members g);
      grouping_loop self rest (total + s)%Q
  end.

Definition score_grouping (self : t) (grouping : Grouping.t) : result Q :=
  let groups := Grouping.get_groups grouping in
  if (length groups =? 0)%nat then Ok 0%Q
  else
    total ← grouping_loop self groups 0%Q;
    py_div total (float_of_len (length groups)).
End Survey.

(** ** course.py: [Course.all_answered] *)

(** The method of [Course] that reads a survey; it stands after [Survey]
    here. *)
Module CourseSurvey.
(** The inner loop [for question in survey.get_questions()] for one
    student; [True] when the loop ends without [return False].  After
    [has_answer] the answer is there, so the last branch is never taken. *)
Fixpoint answered_loop (student : Student.t) (qs : list Question) : bool :=
  match qs with
  | [] => true
  | question :: rest =>
      if negb (Student.has_answer student question) then false
      else
        match Student.get_answer student question with
        | Some answer =>
            if negb (validate_answer question answer) then false
            else answered_loop student rest
        | None => false
        end
  end.

(** The outer loop [for student in self.students]. *)
Fixpoint students_loop (sts : list Student.t) (qs : list Question) : bool :=
  match sts with
  | [] => true
  | student :: rest =>
      if answered_loop student qs then students_loop rest qs else false
  end.

Definition all_answered (self : Course.t) (survey : Survey.t) : bool :=
  students_loop (Course.students self) (Survey.get_questions survey).
End CourseSurvey.

(** ** grouper.py: the grouper strategies *)

(** [grouper.py] is not among the sources: the two groupers follow section
    4.4 of the specification.  [AlphaGrouper] is the deterministic
    construction: the population sorted by name, then by id, and cut into
    consecutive chunks of [group_size]. *)

Module AlphaGrouper.
(** Modelled from the spec: the order of the sort key [(name, id)], name
    first and id as tie-break. *)
Definition key_le (s1 s2 : Student.t) : Prop :=
  match String.compare (Student.name s1) (Student.name s2) with
  | Lt => True
  | Eq => Student.id s1 <= Student.id s2
  | Gt => False
  end.

#[global] Instance key_le_dec : RelDecision key_le.
Proof.
  intros s1 s2. unfold key_le.
  destruct (String.compare (Student.name s1) (Student.name s2)); apply _.
Defined.

(** Modelled from the spec: the consecutive chunks of [n] students,
    [[lst[i:i + n] for i in range(0, len(lst), n)]]; [fuel] bounds the
    number of chunks. *)
Fixpoint slices (fuel n : nat) (lst : list Student.t) : list (list Student.t) :=
  match fuel with
  | O => []
  | S fuel' =>
      match lst with
      | [] => []
      | _ :: _ => take n lst :: slices fuel' n (drop n lst)
      end
  end.

(** Modelled from the spec: the chunks added to the grouping one by one
    with [add_group]. *)
Fixpoint add_groups (grouping : Grouping.t) (chunks : list (list Student.t))
  : Grouping.t :=
  match chunks with
  | [] => grouping
  | members :: rest =>
      add_groups (Grouping.add_group grouping (Group.mk members)).1 rest
  end.

(** Modelled from the spec: sort, slice, and build the grouping; the
    survey plays no part. *)
Definition make_grouping (group_size : nat) (population : list Student.t)
  (survey : Survey.t) : Grouping.t :=
  let sorted := merge_sort key_le population in
  add_groups Grouping.init (slices (length sorted) group_size sorted).
End AlphaGrouper.

(** [GreedyGrouper] is the optimizing construction: from the alphabetical
    grouping, passes over all exchanges of one member of a group with one
    member of a later group; a pass applies the exchange with the largest
    positive gain in [score_grouping], the first one met among equals; the
    search stops at a pass without a gain or when the budget of passes is
    used up. *)

Module GreedyGrouper.
(** Modelled from the spec: the exchange of member [a] of group [i] with
    member [b] of group [j]. *)
Definition swap (groups : list Group.t) (i j a b : nat)
  : option (list Group.t) :=
  gi ← groups !! i;
  gj ← groups !! j;
  x ← Group._members gi !! a;
  y ← Group._members gj !! b;
  Some (<[i := Group.mk (<[a := y]> (Group._members gi))]>
          (<[j := Group.mk (<[b := x]> (Group._members gj))]> groups)).

(** Modelled from the spec: the exchanges of a pass, for every unordered
    pair of groups and every pair of one member from each, by group index
    then by member index. *)
Definition candidates (groups : list Group.t) : list (nat * nat * nat * nat) :=
  i ← seq 0 (length groups);
  j ← seq (S i) (length groups - S i);
  a ← seq 0 (from_option Group.len 0%nat (groups !! i));
  b ← seq 0 (from_option Group.len 0%nat (groups !! j));
  [(i, j, a, b)].

(** Modelled from the spec: one pass.  [best] is the best score so far,
    starting at the score of the current grouping, and [found] the
    exchanged groups that reach it; only a strictly better score replaces
    them, so that the first of equally good exchanges is kept. *)
Fixpoint best_swap (survey : Survey.t) (groups : list Group.t)
  (cands : list (nat * nat * nat * nat)) (best : Q)
  (found : option (list Group.t)) : result (Q * option (list Group.t)) :=
  match cands with
  | [] => Ok (best, found)
  | (i, j, a, b) :: rest =>
      match swap groups i j a b with
      | None => best_swap survey groups rest best found
      | Some groups' =>
          sc ← Survey.score_grouping survey (Grouping.mk groups');
          if Qlt_le_dec best sc
          then best_swap survey groups rest sc (Some groups')
          else best_swap survey groups rest best found
      end
  end.

(** Modelled from the spec: passes are repeated until one finds no
    improving exchange or the [budget] of passes is used up. *)
Fixpoint search (survey : Survey.t) (budget : nat) (groups : list Group.t)
  (current : Q) : result (list Group.t) :=
  match budget with
  | O => Ok groups
  | S budget' =>
      r ← best_swap survey groups (candidates groups) current None;
      match r.2 with
      | None => Ok groups
      | Some groups' => search survey budget' groups' r.1
      end
  end.

(** Modelled from the spec: the search from the alphabetical grouping. *)
Definition make_grouping (group_size budget : nat)
  (population : list Student.t) (survey : Survey.t) : result Grouping.t :=
  let baseline := AlphaGrouper.make_grouping group_size population survey in
  current ← Survey.score_grouping survey baseline;
  groups ← search survey budget (Grouping.get_groups baseline) current;
  Ok (Grouping.mk groups).
End GreedyGrouper.

(** ** Predicates and reference definitions of the properties *)

(** A question of one of the discrete classes: single choice (multiple
    choice, yes/no) or multi choice (checkbox). *)
Definition discrete (q : Question) : Prop :=
  match q with
  | Numeric _ _ _ _ => False
  | _ => True
  end.

(** The outcome is not the raised [InvalidAnswerError]. *)
Definition not_invalid {A : Type} (r : result A) : Prop :=
  r <> Raise InvalidAnswerError.

(** A value that can be a dictionary key. *)
Definition hashable (v : value) : Prop :=
  match v with VAtom _ => True | VList _ => False end.

(** A question whose valid answers are hashable: numeric, yes/no, and
    multiple choice among hashable options. *)
Definition hashable_question (q : Question) : Prop :=
  match q with
  | Numeric _ _ _ _ | YesNo _ _ => True
  | MultipleChoice _ _ opts => Forall hashable opts
  | Checkbox _ _ _ => False
  end.

(** How many answers of the list have a content equal ([==]) to [v]. *)
Definition occurrences (v : value) (answers : list Answer) : nat :=
  length (List.filter (fun b => py_eq (content b) v) answers).

(** How many answers of the list have a content that hashes to [k]. *)
Definition key_count (k : key) (answers : list Answer) : nat :=
  length (List.filter
            (fun b => match content b with
                      | VAtom a => bool_decide (atom_key a = k)
                      | VList _ => false
                      end) answers).

(** The representation invariants of [Survey]. *)
Definition survey_inv (sv : Survey.t) : Prop :=
  (forall k q, Survey._questions sv !! k = Some q -> question_id q = k) /\
  dom (Survey._criteria sv) = dom (Survey._questions sv) /\
  dom (Survey._weights sv) = dom (Survey._questions sv).

(** Two results are the same outcome: the same exception, or equal floats. *)
Definition result_equiv (r1 r2 : result Q) : Prop :=
  match r1, r2 with
  | Ok x, Ok y => (x == y)%Q
  | Raise e1, Raise e2 => e1 = e2
  | _, _ => False
  end.

(** The answers of the students to a question, in the order of the
    students. *)
Definition gathered (sts : list Student.t) (q : Question) : list Answer :=
  omap (fun s => Student.get_answer s q) sts.

(** The criterion score of a question on the gathered answers, times the
    weight of the question. *)
Definition weighted_score (sv : Survey.t) (sts : list Student.t) (q : Question)
  : result Q :=
  match Survey._criteria sv !! question_id q, Survey._weights sv !! question_id q with
  | Some c, Some w =>
      s ← score_answers c q (gathered sts q); Ok (s * inject_Z w)%Q
  | _, _ => Raise KeyError
  end.

(** The sum of a list of outcomes: the first exception, if any. *)
Fixpoint sum_results (rs : list (result Q)) : result Q :=
  match rs with
  | [] => Ok 0%Q
  | r :: rest => x ← r; y ← sum_results rest; Ok (x + y)%Q
  end.

(** The sum of a list of floats. *)
Definition sum_list (xs : list Q) : Q := fold_right Qplus 0%Q xs.

(** The sum of the weighted scores of the questions, by increasing id,
    over the number of questions. *)
Definition weighted_mean (sv : Survey.t) (sts : list Student.t) : result Q :=
  t ← sum_results (map (weighted_score sv sts) (Survey.get_questions sv));
  Ok (t / float_of_len (Survey.len sv))%Q.

(** Every criterion call that the loop can make either returns a score or
    raises [InvalidAnswerError]. *)
Definition scores_or_invalid (sv : Survey.t) (sts : list Student.t) : Prop :=
  forall q c answers,
    q ∈ Survey.get_questions sv ->
    Survey._criteria sv !! question_id q = Some c ->
    Survey._get_ans sts q = Some answers ->
    (exists r, score_answers c q answers = Ok r) \/
    score_answers c q answers = Raise InvalidAnswerError.

(** A question that a student has no answer to, or an invalid answer to. *)
Definition bad_question (sts : list Student.t) (q : Question) : Prop :=
  exists s, s ∈ sts /\
    match Student.get_answer s q with
    | None => True
    | Some a => validate_answer q a = false
    end.

(** The questions and criteria on which scoring valid answers cannot fail:
    a numeric range with [min_ < max_], and the lonely-member criterion on
    questions with hashable answers only. *)
Definition safe_survey (sv : Survey.t) : Prop :=
  forall q c, q ∈ Survey.get_questions sv ->
    Survey._criteria sv !! question_id q = Some c ->
    question_pre q /\ (c = LonelyMember -> hashable_question q).


(** [score_students] returns a score on every non-empty list of students. *)
Definition scorable (sv : Survey.t) : Prop :=
  forall sts, sts <> [] -> exists r, Survey.score_students sv sts = Ok r.


(** ** Data of the examples *)

Definition yn : Question := YesNo 1 "Q".
Definition ansT : Answer := mkAnswer (VAtom (ABool true)).
Definition ansF : Answer := mkAnswer (VAtom (ABool false)).

Definition cb : Question :=
  Checkbox 3 "Pick" (map (fun s => VAtom (AStr s)) ["a"; "b"; "c"; "d"])%string.
Definition ans_abc : Answer := mkAnswer (VList [AStr "a"; AStr "b"; AStr "c"]).
Definition ans_cbd : Answer := mkAnswer (VList [AStr "c"; AStr "b"; AStr "d"]).

Definition course_A : Course.t :=
  (Course.enroll_students (Course.init "CSC148") [Student.init 1 "A"]).1.
Definition batch_BC : list Student.t := [Student.init 1 "B"; Student.init 2 "C"].
Definition batch_C : list Student.t := [Student.init 2 "C"].

Definition cb_ab : Question :=
  Checkbox 1 "Which?" [VAtom (AStr "a"); VAtom (AStr "b")].
Definition ans_a : Answer := mkAnswer (VList [AStr "a"]).

Definition q_rate : Question := Numeric 1 "Rate" 1 5.
Definition q_agree : Question := YesNo 2 "Agree?".

(** [Survey([q_agree, q_rate])] with the weight of [q_agree] set to 3. *)
Definition survey_two : Survey.t :=
  (Survey.set_weight (Survey.init [q_agree; q_rate]) 3 q_agree).1.

Definition answer_all (s : Student.t) (rate : Z) (agree : bool) : Student.t :=
  Student.set_answer
    (Student.set_answer s q_rate (mkAnswer (VAtom (AInt rate))))
    q_agree (mkAnswer (VAtom (ABool agree))).

Definition pair_students : list Student.t :=
  [answer_all (Student.init 1 "A") 1 true; answer_all (Student.init 2 "B") 5 true].

Definition q_tick : Question := cb_ab.
Definition q_yes : Question := YesNo 2 "Agree?".

(** [Survey([q_tick, q_yes])] with the lonely-member criterion on the
    checkbox question. *)
Definition survey_tick : Survey.t :=
  (Survey.set_criterion (Survey.init [q_tick; q_yes]) LonelyMember q_tick).1.

Definition ticked (s : Student.t) : Student.t := Student.set_answer s q_tick ans_a.

Definition tick_students : list Student.t :=
  [ticked (Student.init 1 "A");
   Student.set_answer (ticked (Student.init 2 "B")) q_yes ansT].

(** [Survey([q_tick])] with the lonely-member criterion on its question,
    and two students who both tick ['a']. *)
Definition survey_lonely : Survey.t :=
  (Survey.set_criterion (Survey.init [q_tick]) LonelyMember q_tick).1.

Definition lonely_students : list Student.t :=
  [ticked (Student.init 1 "A"); ticked (Student.init 2 "B")].

(** Four students, named A to D, who answer [q_agree] yes, no, yes, no. *)
Definition agree_survey : Survey.t := Survey.init [q_agree].

Definition agrees (id_ : Z) (name_ : string) (b : bool) : Student.t :=
  Student.set_answer (Student.init id_ name_) q_agree (mkAnswer (VAtom (ABool b))).

Definition four_students : list Student.t :=
  [agrees 4 "D" false; agrees 1 "A" true; agrees 3 "C" true; agrees 2 "B" false].

(** ** Predicates of the further properties *)

(** The order of the sort keys, and the students with the same key. *)
Definition key_le (a : attribute) (x y : Student.t) : Prop :=
  key_leb a x y = true.

Definition same_key (a : attribute) (x y : Student.t) : bool :=
  key_leb a x y && key_leb a y x.

(** The ids of the students of a course. *)
Definition course_ids (c : Course.t) : list Z :=
  map Student.id (Course.students c).

(** Three students of the docstring of [sort_students]. *)
Definition marcello : Student.t := Student.init 1 "Marcello".
Definition diane : Student.t := Student.init 2 "Diane".
Definition mario : Student.t := Student.init 3 "Mario".

(** The surveys that the constructor and the two mutators can produce,
    [set_weight] being called under its precondition [weight > 0]. *)
Inductive reachable : Survey.t -> Prop :=
| reach_init (questions : list Question) : reachable (Survey.init questions)
| reach_set_weight (sv : Survey.t) (weight : Z) (question : Question) :
    reachable sv -> 0 < weight ->
    reachable (Survey.set_weight sv weight question).1
| reach_set_criterion (sv : Survey.t) (criterion : Criterion)
    (question : Question) :
    reachable sv -> reachable (Survey.set_criterion sv criterion question).1.

(** The third representation invariant of [Survey]: each weight is
    greater than 0. *)
Definition weights_positive (sv : Survey.t) : Prop :=
  forall k w, Survey._weights sv !! k = Some w -> 0 < w.

(** The answer with an integer as content. *)
Definition int_answer (z : Z) : Answer := mkAnswer (VAtom (AInt z)).

(** The items of [ans_abc] in another order. *)
Definition ans_bca : Answer := mkAnswer (VList [AStr "b"; AStr "c"; AStr "a"]).

(** The four students in two groups: one group agrees, one does not. *)
Definition two_groups : Grouping.t :=
  Grouping.mk
    [Group.mk [agrees 1 "A" true; agrees 3 "C" true];
     Group.mk [agrees 2 "B" false; agrees 4 "D" true]].

(** The unordered pairs of a list of answers: each answer with each later
    one. *)
Fixpoint pairs (l : list Answer) : list (Answer * Answer) :=
  match l with
  | [] => []
  | a :: rest => map (pair a) rest ++ pairs rest
  end.

(** The similarity of a pair when [get_similarity] returns one. *)
Definition similarity_value (q : Question) (p : Answer * Answer) : Q :=
  match get_similarity q p.1 p.2 with
  | Ok s => s
  | Raise _ => 0%Q
  end.

(** A question with one choice as answer: multiple choice or yes/no. *)
Definition single_choice (q : Question) : Prop :=
  match q with
  | MultipleChoice _ _ _ | YesNo _ _ => True
  | _ => False
  end.

(** A criterion and a question whose score involves no rounding: the
    lonely-member criterion counts, and the similarities of a question
    with one choice are 0 and 1, whose sums are whole numbers. *)
Definition exact_score (c : Criterion) (q : Question) : Prop :=
  c = LonelyMember \/ single_choice q.

(** Every question of the survey is scored without rounding. *)
Definition exact_survey (sv : Survey.t) : Prop :=
  forall q c, q ∈ Survey.get_questions sv ->
    Survey._criteria sv !! question_id q = Some c -> exact_score c q.

(** The whole numbers up to 2^53 are floats: a product or a sum that stays
    within them is computed without rounding. *)
Definition float_exact (z : Z) : Prop := Z.abs z <= 2 ^ 53.

(** The largest float, [sys.float_info.max]. *)
Definition float_max : Z := 2 ^ 1024 - 2 ^ 971.

(** Every weight is an integer that [float] converts; the conversion of
    an integer beyond the largest float raises [OverflowError], which is
    not among the modelled exceptions. *)
Definition weights_convertible (sv : Survey.t) : Prop :=
  forall k w, Survey._weights sv !! k = Some w -> Z.abs w <= float_max.

(** The weights of the survey lie between 0 and [W]. *)
Definition weights_within (sv : Survey.t) (W : Z) : Prop :=
  forall k w, Survey._weights sv !! k = Some w -> 0 <= w <= W.

(** [xs] are the scores that [score_students] returns for the groups, in
    the order of the groups. *)
Definition group_scores (sv : Survey.t) (groups : list Group.t) (xs : list Q)
  : Prop :=
  Forall2 (fun g x => Survey.score_students sv (Group.get_members g) = Ok x)
    groups xs.

(** [total += x] over [xs], from [total]. *)
Definition accumulate (xs : list Q) (total : Q) : Q := fold_left Qplus xs total.

(** * Properties *)

(** ** The value model *)

Example py_div_ex : py_div 1 0 = Raise ZeroDivisionError.
Proof. reflexivity. Qed.

Example py_set_ex : size (py_set [AInt 1; ABool true; AStr "a"]) = 2%nat.
Proof. vm_compute. reflexivity. Qed.

(** [test_homogeneous_three_avg] *)
Example test_homogeneous_three_avg :
  exists r, score_answers Homogeneous yn [ansT; ansT; ansF] = Ok r /\ (r == 1 # 3)%Q.
Proof. eexists. split; [vm_compute; reflexivity | reflexivity]. Qed.

(** ** Arithmetic of the float model *)

Lemma py_div_ok (x y : Q) : ~ (y == 0)%Q -> py_div x y = Ok (x / y)%Q.
Proof.
  intros Hy. unfold py_div.
  destruct (Qeq_bool y 0) eqn:E; [|reflexivity].
  apply Qeq_bool_iff in E. contradiction.
Qed.

Lemma py_div_zero (x y : Q) : (y == 0)%Q -> py_div x y = Raise ZeroDivisionError.
Proof.
  intros Hy. unfold py_div.
  apply Qeq_bool_iff in Hy. by rewrite Hy.
Qed.

Lemma float_of_int_nonzero (z : Z) : z <> 0 -> ~ (float_of_int z == 0)%Q.
Proof.
  unfold float_of_int, Qeq. simpl. lia.
Qed.

Lemma float_of_len_nonzero (n : nat) : n <> 0%nat -> ~ (float_of_len n == 0)%Q.
Proof. intros Hn. apply float_of_int_nonzero. lia. Qed.

Lemma float_of_len_S (n : nat) : (float_of_len (S n) == float_of_len n + 1)%Q.
Proof.
  unfold float_of_len. rewrite Nat2Z.inj_succ. unfold Z.succ.
  by rewrite inject_Z_plus.
Qed.

Lemma float_of_len_add (n m : nat) :
  (float_of_len (n + m) == float_of_len n + float_of_len m)%Q.
Proof. unfold float_of_len. by rewrite Nat2Z.inj_add, inject_Z_plus. Qed.

Lemma float_of_len_pos (n : nat) : n <> 0%nat -> (0 < float_of_len n)%Q.
Proof.
  intros Hn. unfold float_of_len. change 0%Q with (inject_Z 0).
  rewrite <- Zlt_Qlt. lia.
Qed.

Lemma ratio_bounds (n d : Z) :
  0 <= n <= d -> 0 < d ->
  (0 <= inject_Z n / inject_Z d)%Q /\ (inject_Z n / inject_Z d <= 1)%Q.
Proof.
  intros [Hn Hnd] Hd.
  assert (Hd' : (0 < inject_Z d)%Q)
    by (change 0%Q with (inject_Z 0); by rewrite <- Zlt_Qlt).
  split.
  - apply Qle_shift_div_l; [done|]. rewrite Qmult_0_l.
    change 0%Q with (inject_Z 0). by rewrite <- Zle_Qle.
  - apply Qle_shift_div_r; [done|]. rewrite Qmult_1_l. by rewrite <- Zle_Qle.
Qed.

Lemma ratio_self (d : Z) : d <> 0 -> (inject_Z d / inject_Z d == 1)%Q.
Proof.
  intros Hd. apply Qmult_inv_r. unfold Qeq. simpl. lia.
Qed.

(** ** Questions *)

Lemma numeric_valid_inv (lo hi : Z) (a : Answer) :
  NumericQuestion.validate_answer lo hi a = true ->
  exists z, content a = VAtom (AInt z) /\ lo <= z <= hi.
Proof.
  unfold NumericQuestion.validate_answer.
  destruct (content a) as [[| z | |]|]; try discriminate.
  intros H. apply andb_true_iff in H as [H1%Z.leb_le H2%Z.leb_le].
  exists z. split; [done|lia].
Qed.

Lemma numeric_similarity_int (lo hi x y : Z) (a1 a2 : Answer) :
  lo < hi -> content a1 = VAtom (AInt x) -> content a2 = VAtom (AInt y) ->
  NumericQuestion.get_similarity lo hi a1 a2
  = Ok (1 - inject_Z (Z.abs (x - y)) / inject_Z (hi - lo))%Q.
Proof.
  intros Hlt H1 H2. unfold NumericQuestion.get_similarity.
  rewrite H1, H2. simpl.
  rewrite py_div_ok by (apply float_of_int_nonzero; lia).
  reflexivity.
Qed.

(** C8. For a [NumericQuestion] with [min_ < max_] and two valid answers,
    whose contents are then integers [x] and [y] of the range,
    [get_similarity] returns [1 - |x - y| / (max_ - min_)]; the value is 1
    when [x = y] and 0 when the two are the minimum and the maximum. *)
Theorem numeric_similarity_linear (i : Z) (txt : string) (lo hi : Z)
  (a1 a2 : Answer) :
  lo < hi ->
  validate_answer (Numeric i txt lo hi) a1 = true ->
  validate_answer (Numeric i txt lo hi) a2 = true ->
  exists x y r,
    content a1 = VAtom (AInt x) /\ content a2 = VAtom (AInt y) /\
    get_similarity (Numeric i txt lo hi) a1 a2 = Ok r /\
    (r == 1 - inject_Z (Z.abs (x - y)) / inject_Z (hi - lo))%Q /\
    (x = y -> (r == 1)%Q) /\
    ((x = lo /\ y = hi) \/ (x = hi /\ y = lo) -> (r == 0)%Q).
Proof.
  intros Hlt V1 V2. simpl in V1, V2.
  apply numeric_valid_inv in V1 as (x & Hx & Rx).
  apply numeric_valid_inv in V2 as (y & Hy & Ry).
  exists x, y, (1 - inject_Z (Z.abs (x - y)) / inject_Z (hi - lo))%Q.
  split; [done|]. split; [done|].
  split; [by apply numeric_similarity_int|].
  split; [reflexivity|]. split.
  - intros ->. rewrite Z.sub_diag. simpl. unfold Qdiv. rewrite Qmult_0_l. reflexivity.
  - intros Hends.
    assert (Z.abs (x - y) = hi - lo) as -> by lia.
    rewrite ratio_self by lia. reflexivity.
Qed.

Lemma numeric_similarity_linear_witness :
  exists x y r,
    content (mkAnswer (VAtom (AInt 2))) = VAtom (AInt x) /\
    content (mkAnswer (VAtom (AInt 4))) = VAtom (AInt y) /\
    get_similarity (Numeric 2 "Rate" 1 5) (mkAnswer (VAtom (AInt 2)))
      (mkAnswer (VAtom (AInt 4))) = Ok r /\
    (r == 1 - inject_Z (Z.abs (x - y)) / inject_Z (5 - 1))%Q /\
    (x = y -> (r == 1)%Q) /\
    ((x = 1 /\ y = 5) \/ (x = 5 /\ y = 1) -> (r == 0)%Q).
Proof.
  apply (numeric_similarity_linear 2 "Rate" 1 5); [lia | reflexivity | reflexivity].
Defined.

Lemma py_eq_refl (v : value) : py_eq v v = true.
Proof. destruct v; simpl; unfold atom_eqb; by apply bool_decide_eq_true. Qed.

Lemma py_eq_sym (v w : value) : py_eq v w = py_eq w v.
Proof.
  destruct v, w; simpl; unfold atom_eqb; try reflexivity;
    apply bool_decide_ext; split; congruence.
Qed.

Lemma py_set_nonempty (l : list atom) : l <> [] -> size (py_set l) <> 0%nat.
Proof.
  destruct l as [|a l]; [done|]. intros _ H.
  apply size_empty_inv in H. unfold py_set in H. simpl in H. set_solver.
Qed.

Lemma checkbox_valid_inv (opts : list value) (a : Answer) :
  CheckboxQuestion.validate_answer opts a = true ->
  exists l, content a = VList l /\ l <> [].
Proof.
  unfold CheckboxQuestion.validate_answer.
  destruct (content a) as [|l]; [discriminate|].
  destruct l; [discriminate|]. intros _. eexists. split; [reflexivity|discriminate].
Qed.

Lemma checkbox_similarity_lists (l1 l2 : list atom) (a1 a2 : Answer) :
  content a1 = VList l1 -> content a2 = VList l2 -> l1 <> [] ->
  CheckboxQuestion.get_similarity a1 a2
  = Ok (float_of_len (size (py_set l1 ∩ py_set l2))
        / float_of_len (size (py_set l1 ∪ py_set l2)))%Q.
Proof.
  intros H1 H2 Hne. unfold CheckboxQuestion.get_similarity.
  rewrite H1, H2. simpl.
  assert (Hu : size (py_set l1 ∪ py_set l2) <> 0%nat).
  { pose proof (py_set_nonempty l1 Hne) as Hs.
    pose proof (subseteq_size (py_set l1) (py_set l1 ∪ py_set l2)
                  (union_subseteq_l _ _)).
    lia. }
  destruct (Nat.eqb_spec (size (py_set l1 ∪ py_set l2)) 0); [done|].
  by rewrite py_div_ok by (by apply float_of_len_nonzero).
Qed.

Lemma multiple_choice_similarity_sym (a1 a2 : Answer) :
  MultipleChoiceQuestion.get_similarity a1 a2
  = MultipleChoiceQuestion.get_similarity a2 a1.
Proof.
  unfold MultipleChoiceQuestion.get_similarity. by rewrite py_eq_sym.
Qed.

Lemma multiple_choice_similarity_range (a1 a2 : Answer) :
  exists r, MultipleChoiceQuestion.get_similarity a1 a2 = Ok r /\
            (0 <= r)%Q /\ (r <= 1)%Q.
Proof.
  unfold MultipleChoiceQuestion.get_similarity.
  destruct (py_eq _ _); eexists; (split; [reflexivity|]); split; discriminate.
Qed.

(** Similarity of two valid answers is defined, the same in both orders,
    and lies in [0,1]. *)
Lemma get_similarity_valid (q : Question) (a1 a2 : Answer) :
  question_pre q ->
  validate_answer q a1 = true -> validate_answer q a2 = true ->
  exists r, get_similarity q a1 a2 = Ok r /\ get_similarity q a2 a1 = Ok r /\
            (0 <= r)%Q /\ (r <= 1)%Q.
Proof.
  intros Hpre V1 V2. destruct q as [i t o|i t lo hi|i t|i t o]; simpl in *.
  - destruct (multiple_choice_similarity_range a1 a2) as (r & E & B).
    exists r. rewrite (multiple_choice_similarity_sym a2 a1). tauto.
  - apply numeric_valid_inv in V1 as (x & Hx & Rx).
    apply numeric_valid_inv in V2 as (y & Hy & Ry).
    eexists. split; [by eapply numeric_similarity_int|].
    split.
    + rewrite (numeric_similarity_int lo hi y x) by done.
      by replace (Z.abs (y - x)) with (Z.abs (x - y)) by lia.
    + destruct (ratio_bounds (Z.abs (x - y)) (hi - lo)) as [B0 B1]; [lia|lia|].
      split; lra.
  - destruct (multiple_choice_similarity_range a1 a2) as (r & E & B).
    exists r. rewrite (multiple_choice_similarity_sym a2 a1). tauto.
  - apply checkbox_valid_inv in V1 as (l1 & H1 & N1).
    apply checkbox_valid_inv in V2 as (l2 & H2 & N2).
    eexists. split; [by eapply checkbox_similarity_lists|].
    split.
    + rewrite (checkbox_similarity_lists l2 l1) by done.
      by rewrite (comm_L (∩) (py_set l2)), (comm_L (∪) (py_set l2)).
    + pose proof (py_set_nonempty l1 N1) as Hs.
      pose proof (subseteq_size (py_set l1) (py_set l1 ∪ py_set l2)
                    (union_subseteq_l _ _)).
      pose proof (subseteq_size (py_set l1 ∩ py_set l2) (py_set l1)
                    (intersection_subseteq_l _ _)).
      apply ratio_bounds; lia.
Qed.

(** For two valid answers with equal content to a discrete question the
    similarity is 1. *)
Lemma get_similarity_same (q : Question) (a1 a2 : Answer) :
  discrete q ->
  validate_answer q a1 = true -> validate_answer q a2 = true ->
  py_eq (content a1) (content a2) = true ->
  exists r, get_similarity q a1 a2 = Ok r /\ (r == 1)%Q.
Proof.
  intros Hd V1 V2 E. destruct q as [i t o|i t lo hi|i t|i t o]; simpl in *;
    try done.
  - unfold MultipleChoiceQuestion.get_similarity. rewrite E. by eexists.
  - unfold MultipleChoiceQuestion.get_similarity. rewrite E. by eexists.
  - apply checkbox_valid_inv in V1 as (l1 & H1 & N1).
    apply checkbox_valid_inv in V2 as (l2 & H2 & N2).
    rewrite H1, H2 in E. simpl in E. apply bool_decide_eq_true in E.
    eexists. split; [by eapply checkbox_similarity_lists|].
    assert (py_set l2 = py_set l1) as -> by (unfold py_set; by rewrite E).
    rewrite (idemp_L (∩)), (idemp_L (∪)).
    apply ratio_self. pose proof (py_set_nonempty l1 N1). lia.
Qed.

(** C7. For a question of any class (with [min_ < max_] when numeric) and
    two valid answers, [get_similarity] returns a value, returns the same
    value with the arguments exchanged, the value lies in [0,1], and for a
    discrete question and equal contents it is 1. *)
Theorem get_similarity_symmetric_bounded (q : Question) (a1 a2 : Answer) :
  question_pre q ->
  validate_answer q a1 = true -> validate_answer q a2 = true ->
  exists r,
    get_similarity q a1 a2 = Ok r /\ get_similarity q a2 a1 = Ok r /\
    (0 <= r)%Q /\ (r <= 1)%Q /\
    (discrete q -> py_eq (content a1) (content a2) = true -> (r == 1)%Q).
Proof.
  intros Hpre V1 V2.
  destruct (get_similarity_valid q a1 a2 Hpre V1 V2) as (r & E1 & E2 & B0 & B1).
  exists r. repeat (split; [done|]).
  intros Hd Heq.
  destruct (get_similarity_same q a1 a2 Hd V1 V2 Heq) as (r' & E' & R').
  congruence.
Qed.

(** The docstring example of [CheckboxQuestion.get_similarity]: 2/4. *)
Example checkbox_similarity_example :
  exists r, get_similarity cb ans_abc ans_cbd = Ok r /\ (r == 1 # 2)%Q.
Proof. eexists. split; [vm_compute; reflexivity | reflexivity]. Qed.

Lemma get_similarity_symmetric_bounded_witness :
  exists r,
    get_similarity cb ans_abc ans_cbd = Ok r /\
    get_similarity cb ans_cbd ans_abc = Ok r /\
    (0 <= r)%Q /\ (r <= 1)%Q /\
    (discrete cb -> py_eq (content ans_abc) (content ans_cbd) = true -> (r == 1)%Q).
Proof.
  apply (get_similarity_symmetric_bounded cb ans_abc ans_cbd);
    [exact I | vm_compute; reflexivity | vm_compute; reflexivity].
Defined.

(** ** Criteria *)

Lemma check_answers_ok (q : Question) (answers : list Answer) :
  Forall (fun a => validate_answer q a = true) answers ->
  check_answers q answers = Ok tt.
Proof.
  induction 1 as [|a l Ha _ IH]; simpl; [done|].
  unfold is_valid. by rewrite Ha.
Qed.

Lemma check_answers_invalid (q : Question) (answers : list Answer) :
  Exists (fun a => validate_answer q a = false) answers ->
  check_answers q answers = Raise InvalidAnswerError.
Proof.
  induction 1 as [a l Ha|a l _ IH]; simpl; unfold is_valid.
  - by rewrite Ha.
  - destruct (validate_answer q a); done.
Qed.

Lemma check_answers_cases (q : Question) (answers : list Answer) :
  (check_answers q answers = Ok tt /\
   Forall (fun a => validate_answer q a = true) answers) \/
  (check_answers q answers = Raise InvalidAnswerError /\
   Exists (fun a => validate_answer q a = false) answers).
Proof.
  induction answers as [|a l IH]; simpl; [left; by split|].
  unfold is_valid. destruct (validate_answer q a) eqn:Ha.
  - destruct IH as [[-> F]|[-> E]]; [left|right]; split; auto.
  - right. split; [done|]. by left.
Qed.

Lemma not_invalid_bind {A B : Type} (r : result A) (k : A -> result B) :
  not_invalid r -> (forall a, not_invalid (k a)) -> not_invalid (r ≫= k).
Proof.
  unfold not_invalid. intros Hr Hk. destruct r as [a|e]; simpl; [apply Hk|].
  intros [= ->]. by apply Hr.
Qed.

Lemma py_div_not_invalid (x y : Q) : not_invalid (py_div x y).
Proof. unfold not_invalid, py_div. by destruct (Qeq_bool y 0). Qed.

Lemma as_int_not_invalid (v : value) : not_invalid (NumericQuestion.as_int v).
Proof. by destruct v as [[]|]. Qed.

Lemma set_of_not_invalid (v : value) : not_invalid (CheckboxQuestion.set_of v).
Proof. by destruct v as [[]|]. Qed.

Lemma get_similarity_not_invalid (q : Question) (a1 a2 : Answer) :
  not_invalid (get_similarity q a1 a2).
Proof.
  destruct q as [i t o|i t lo hi|i t|i t o]; simpl.
  - unfold MultipleChoiceQuestion.get_similarity. by destruct (py_eq _ _).
  - unfold NumericQuestion.get_similarity.
    apply not_invalid_bind; [apply as_int_not_invalid|intros c1].
    apply not_invalid_bind; [apply as_int_not_invalid|intros c2].
    apply not_invalid_bind; [apply py_div_not_invalid|done].
  - unfold MultipleChoiceQuestion.get_similarity. by destruct (py_eq _ _).
  - unfold CheckboxQuestion.get_similarity.
    apply not_invalid_bind; [apply set_of_not_invalid|intros s1].
    apply not_invalid_bind; [apply set_of_not_invalid|intros s2].
    destruct (size (s1 ∪ s2) =? 0)%nat; [done|]. apply py_div_not_invalid.
Qed.

Lemma inner_loop_not_invalid (q : Question) (ai : Answer) (rest : list Answer)
  (st : Q * nat) : not_invalid (HomogeneousCriterion.inner_loop q ai rest st).
Proof.
  revert st. induction rest as [|aj rest IH]; intros st; simpl; [done|].
  apply not_invalid_bind; [apply get_similarity_not_invalid|intros s; apply IH].
Qed.

Lemma outer_loop_not_invalid (q : Question) (answers : list Answer)
  (st : Q * nat) : not_invalid (HomogeneousCriterion.outer_loop q answers st).
Proof.
  revert st. induction answers as [|ai rest IH]; intros st; simpl; [done|].
  apply not_invalid_bind; [apply inner_loop_not_invalid|intros s; apply IH].
Qed.

Lemma count_loop_not_invalid (answers : list Answer) (counts : gmap key nat) :
  not_invalid (LonelyMemberCriterion.count_loop answers counts).
Proof.
  revert counts. induction answers as [|a rest IH]; intros counts; simpl; [done|].
  destruct (content a); [apply IH|done].
Qed.

(** When every answer is valid, no criterion raises [InvalidAnswerError]. *)
Lemma score_answers_valid_not_invalid (c : Criterion) (q : Question)
  (answers : list Answer) :
  check_answers q answers = Ok tt -> not_invalid (score_answers c q answers).
Proof.
  intros Hc.
  assert (Hh : not_invalid (HomogeneousCriterion.score_answers q answers)).
  { unfold HomogeneousCriterion.score_answers. rewrite Hc. simpl.
    destruct (length answers =? 1)%nat; [done|].
    apply not_invalid_bind; [apply outer_loop_not_invalid|].
    intros st. apply py_div_not_invalid. }
  destruct c; simpl.
  - exact Hh.
  - unfold HeterogeneousCriterion.score_answers.
    by apply not_invalid_bind.
  - unfold LonelyMemberCriterion.score_answers. rewrite Hc. simpl.
    destruct (length answers =? 1)%nat; [done|].
    apply not_invalid_bind; [apply count_loop_not_invalid|].
    intros counts. by destruct (LonelyMemberCriterion.has_unique counts).
Qed.

Lemma score_answers_some_invalid (c : Criterion) (q : Question)
  (answers : list Answer) :
  check_answers q answers = Raise InvalidAnswerError ->
  score_answers c q answers = Raise InvalidAnswerError.
Proof.
  intros Hc. destruct c; simpl;
    unfold HeterogeneousCriterion.score_answers,
      HomogeneousCriterion.score_answers, LonelyMemberCriterion.score_answers;
    by rewrite Hc.
Qed.

(** C6. For each of the three criteria, [score_answers] raises
    [InvalidAnswerError] exactly when some answer of the list fails
    [validate_answer] for the question; the result of the direct call is
    that error itself, nothing in the criterion catches it. *)
Theorem score_answers_raises_iff_invalid (c : Criterion) (q : Question)
  (answers : list Answer) :
  score_answers c q answers = Raise InvalidAnswerError <->
  exists a, a ∈ answers /\ validate_answer q a = false.
Proof.
  rewrite <- Exists_exists.
  destruct (check_answers_cases q answers) as [[Hc F]|[Hc E]].
  - split.
    + intros H. by apply score_answers_valid_not_invalid with (c := c) in Hc.
    + intros E. exfalso. apply Exists_exists in E as (a & Ha & Hv).
      rewrite Forall_forall in F. specialize (F a Ha). congruence.
  - split; [done|]. intros _. by apply score_answers_some_invalid.
Qed.

(** On valid answers the pair loops run to the end; [count] grows by one
    per pair and [total] by a similarity in [0,1] per pair. *)
Lemma inner_loop_valid (q : Question) (ai : Answer) (rest : list Answer)
  (st : Q * nat) :
  question_pre q -> validate_answer q ai = true ->
  Forall (fun a => validate_answer q a = true) rest ->
  exists total,
    HomogeneousCriterion.inner_loop q ai rest st
    = Ok (total, (st.2 + length rest)%nat) /\
    (st.1 <= total)%Q /\ (total <= st.1 + float_of_len (length rest))%Q.
Proof.
  intros Hpre Hi F. revert st.
  induction F as [|aj rest Hj F IH]; intros [t c]; simpl.
  - exists t. rewrite Nat.add_0_r. split; [done|].
    change (float_of_len 0) with 0%Q. split; lra.
  - destruct (get_similarity_valid q ai aj Hpre Hi Hj) as (s & -> & _ & B0 & B1).
    simpl. destruct (IH ((t + s)%Q, S c)) as (total & -> & L0 & L1).
    simpl in *. exists total.
    split; [f_equal; f_equal; lia|].
    rewrite float_of_len_S. split; lra.
Qed.

Lemma outer_loop_valid (q : Question) (answers : list Answer) (st : Q * nat) :
  question_pre q ->
  Forall (fun a => validate_answer q a = true) answers ->
  exists total count,
    HomogeneousCriterion.outer_loop q answers st = Ok (total, count) /\
    (st.2 + (length answers - 1) <= count)%nat /\
    (st.1 <= total)%Q /\
    (total - st.1 <= float_of_len (count - st.2))%Q.
Proof.
  intros Hpre F. revert st.
  induction F as [|ai rest Hi F IH]; intros [t c]; simpl.
  - exists t, c. split; [done|]. split; [lia|]. rewrite Nat.sub_diag.
    change (float_of_len 0) with 0%Q. split; lra.
  - destruct (inner_loop_valid q ai rest (t, c) Hpre Hi F) as (t1 & -> & L0 & L1).
    simpl in *.
    destruct (IH (t1, (c + length rest)%nat)) as (t2 & c2 & -> & Hc & M0 & M1).
    simpl in *. exists t2, c2. split; [done|]. split; [lia|]. split; [lra|].
    replace (c2 - c)%nat with (c2 - (c + length rest) + length rest)%nat by lia.
    rewrite float_of_len_add. lra.
Qed.

(** On a non-empty list of valid answers the homogeneous score is defined
    and lies in [0,1]. *)
Lemma homogeneous_valid (q : Question) (answers : list Answer) :
  question_pre q -> answers <> [] ->
  Forall (fun a => validate_answer q a = true) answers ->
  exists h, HomogeneousCriterion.score_answers q answers = Ok h /\
            (0 <= h)%Q /\ (h <= 1)%Q.
Proof.
  intros Hpre Hne F. unfold HomogeneousCriterion.score_answers.
  rewrite (check_answers_ok q answers F). simpl.
  destruct (Nat.eqb_spec (length answers) 1) as [|Hlen].
  - exists 1%Q. split; [done|]. split; discriminate.
  - destruct (outer_loop_valid q answers (0%Q, 0%nat) Hpre F)
      as (total & count & -> & Hc & L0 & L1).
    simpl in *.
    assert (count <> 0%nat).
    { destruct answers as [|a [|b l]]; simpl in *; try done; lia. }
    rewrite py_div_ok by (by apply float_of_len_nonzero).
    eexists. split; [reflexivity|].
    rewrite Nat.sub_0_r in L1.
    pose proof (float_of_len_pos count ltac:(done)).
    split.
    + apply Qle_shift_div_l; [done|]. lra.
    + apply Qle_shift_div_r; [done|]. lra.
Qed.

(** C5. On a non-empty list of valid answers (to a question with
    [min_ < max_] when numeric) the homogeneous and the heterogeneous
    criterion both return a score, and the two scores add up to 1. *)
Theorem homogeneous_heterogeneous_sum (q : Question) (answers : list Answer) :
  question_pre q -> answers <> [] ->
  Forall (fun a => validate_answer q a = true) answers ->
  exists h t,
    score_answers Homogeneous q answers = Ok h /\
    score_answers Heterogeneous q answers = Ok t /\
    (h + t == 1)%Q.
Proof.
  intros Hpre Hne F.
  destruct (homogeneous_valid q answers Hpre Hne F) as (h & Hh & _).
  exists h, (1 - h)%Q. simpl.
  unfold HeterogeneousCriterion.score_answers. rewrite Hh.
  split; [done|]. split; [done|]. ring.
Qed.

Lemma homogeneous_heterogeneous_sum_witness :
  exists h t,
    score_answers Homogeneous yn [ansT; ansT; ansF] = Ok h /\
    score_answers Heterogeneous yn [ansT; ansT; ansF] = Ok t /\
    (h + t == 1)%Q.
Proof.
  apply (homogeneous_heterogeneous_sum yn [ansT; ansT; ansF]);
    [exact I | discriminate | repeat constructor].
Defined.

(** ** Students and courses *)

(** C10. [has_answer] is true exactly when an answer is recorded under the
    id of the question; whether that answer is valid for the question plays
    no part: after [set_answer] with any answer at all, [has_answer] is
    true. *)
Theorem has_answer_iff_recorded (s : Student.t) (q : Question) :
  (Student.has_answer s q = true <->
   exists a, Student._answers s !! question_id q = Some a) /\
  (forall a : Answer, Student.has_answer (Student.set_answer s q a) q = true).
Proof.
  unfold Student.has_answer, Student.set_answer. simpl. split.
  - rewrite bool_decide_eq_true, elem_of_dom. reflexivity.
  - intros a. apply bool_decide_eq_true. rewrite dom_insert_L. set_solver.
Qed.

(** A recorded answer that is not valid for the question still counts. *)
Example has_answer_invalid :
  let s := Student.set_answer (Student.init 1 "Aman") yn (mkAnswer (VAtom (AStr "yes"))) in
  Student.has_answer s yn = true /\
  (exists a, Student.get_answer s yn = Some a /\ validate_answer yn a = false).
Proof. split; [by vm_compute|]. eexists. split; by vm_compute. Qed.

(** C9, as stated, fails: on the batch of [test_course_enroll_atomic],
    which repeats the id of an enrolled student, the course is unchanged,
    but the value of the call is [None], which is not the boolean [False]
    (nor any boolean), and it is the very value of a call that enrolls. *)
Lemma enroll_students_no_boolean :
  ~ (Course.students (Course.enroll_students course_A batch_BC).1
       = Course.students course_A /\
     exists b : bool,
       (Course.enroll_students course_A batch_BC).2 = VAtom (ABool b)).
Proof. intros [_ [b Hb]]. vm_compute in Hb. discriminate. Qed.

Example enroll_students_same_value :
  (Course.enroll_students course_A batch_BC).2
  = (Course.enroll_students course_A batch_C).2 /\
  Course.students (Course.enroll_students course_A batch_C).1
  = Course.students course_A ++ batch_C.
Proof. split; by vm_compute. Qed.

(** C9, amended. When the batch has a student whose id is that of an
    enrolled student, [enroll_students] leaves the course as it was, raises
    nothing, and evaluates to [None]. *)
Theorem enroll_students_conflict (self : Course.t) (batch : list Student.t)
  (s e : Student.t) :
  s ∈ batch -> e ∈ Course.students self -> Student.id e = Student.id s ->
  Course.enroll_students self batch = (self, VAtom ANone).
Proof.
  intros Hs He Hid. unfold Course.enroll_students.
  destruct (existsb _ batch) eqn:E; [done|].
  exfalso. apply not_true_iff_false in E. apply E.
  apply existsb_exists. exists s. split; [by apply list_elem_of_In|].
  apply bool_decide_eq_true, elem_of_list_to_set, list_elem_of_fmap.
  exists e. by split.
Qed.

Lemma enroll_students_conflict_witness :
  Course.enroll_students course_A batch_BC = (course_A, VAtom ANone).
Proof.
  apply (enroll_students_conflict course_A batch_BC
           (Student.init 1 "B") (Student.init 1 "A")).
  - apply list_elem_of_here.
  - apply list_elem_of_here.
  - reflexivity.
Defined.

(** ** The lonely-member criterion *)

Lemma occurrences_key_count (a : atom) (answers : list Answer) :
  occurrences (VAtom a) answers = key_count (atom_key a) answers.
Proof. reflexivity. Qed.

Lemma occurrences_self (a : Answer) (answers : list Answer) :
  a ∈ answers -> (1 <= occurrences (content a) answers)%nat.
Proof.
  unfold occurrences. induction 1 as [a l|a b l _ IH]; simpl.
  - rewrite py_eq_refl. simpl. lia.
  - destruct (py_eq (content b) (content a)); simpl; lia.
Qed.

Lemma key_count_pos_elem (k : key) (answers : list Answer) :
  (1 <= key_count k answers)%nat ->
  exists b a, b ∈ answers /\ content b = VAtom a /\ atom_key a = k.
Proof.
  unfold key_count. induction answers as [|b l IH]; simpl; [lia|].
  destruct (content b) as [a|] eqn:Eb.
  - destruct (bool_decide_reflect (atom_key a = k)) as [Hk|Hk]; simpl.
    + intros _. exists b, a. split; [left|done].
    + intros H. destruct (IH H) as (b' & a' & Hin & Hc & Hk').
      exists b', a'. split; [by right|done].
  - intros H. destruct (IH H) as (b' & a' & Hin & Hc & Hk').
    exists b', a'. split; [by right|done].
Qed.

(** The counting loop on hashable contents: it ends, and the entry of a
    key grows by the number of answers with that key. *)
Lemma count_loop_hashable (answers : list Answer) (counts : gmap key nat) :
  Forall (fun a => hashable (content a)) answers ->
  exists counts',
    LonelyMemberCriterion.count_loop answers counts = Ok counts' /\
    forall k, default 0%nat (counts' !! k)
              = (default 0%nat (counts !! k) + key_count k answers)%nat.
Proof.
  intros F. revert counts.
  induction F as [|b l Hb F IH]; intros counts; simpl.
  - exists counts. split; [done|]. intros k. unfold key_count. simpl. lia.
  - destruct (content b) as [a|] eqn:Eb; [|done].
    destruct (IH (<[atom_key a := (default 0%nat (counts !! atom_key a) + 1)%nat]>
                    counts)) as (counts' & -> & Hc).
    exists counts'. split; [done|]. intros k. rewrite Hc.
    unfold key_count. simpl. rewrite Eb.
    destruct (bool_decide_reflect (atom_key a = k)) as [<-|Hk]; simpl.
    + rewrite lookup_insert_eq. simpl. fold (key_count (atom_key a) l). lia.
    + rewrite lookup_insert_ne by done. reflexivity.
Qed.

(** The loop never stores a zero. *)
Lemma count_loop_positive (answers : list Answer) (counts counts' : gmap key nat) :
  (forall k, counts !! k <> Some 0%nat) ->
  LonelyMemberCriterion.count_loop answers counts = Ok counts' ->
  forall k, counts' !! k <> Some 0%nat.
Proof.
  revert counts. induction answers as [|b l IH]; intros counts Hpos; simpl.
  - by intros [= <-].
  - destruct (content b) as [a|]; [|done]. apply IH. intros k.
    destruct (decide (atom_key a = k)) as [<-|Hk].
    + rewrite lookup_insert_eq. intros [= H]. lia.
    + rewrite lookup_insert_ne by done. apply Hpos.
Qed.

Lemma has_unique_spec (counts : gmap key nat) :
  LonelyMemberCriterion.has_unique counts = true <->
  exists k, counts !! k = Some 1%nat.
Proof.
  unfold LonelyMemberCriterion.has_unique. rewrite existsb_exists. split.
  - intros ([k v] & Hin & Hv). simpl in Hv. apply Nat.eqb_eq in Hv. subst v.
    exists k. by apply elem_of_map_to_list, list_elem_of_In.
  - intros (k & Hk). exists (k, 1%nat). split; [|done].
    by apply list_elem_of_In, elem_of_map_to_list.
Qed.

(** On two or more (or no) valid answers with hashable contents, the score
    is 0 when some key is held by exactly one answer and 1 otherwise. *)
Lemma lonely_member_counts (q : Question) (answers : list Answer) :
  Forall (fun a => validate_answer q a = true) answers ->
  Forall (fun a => hashable (content a)) answers ->
  length answers <> 1%nat ->
  ((exists k, key_count k answers = 1%nat) /\
   LonelyMemberCriterion.score_answers q answers = Ok 0%Q) \/
  ((forall k, key_count k answers <> 1%nat) /\
   LonelyMemberCriterion.score_answers q answers = Ok 1%Q).
Proof.
  intros V H Hlen. unfold LonelyMemberCriterion.score_answers.
  rewrite (check_answers_ok q answers V). simpl.
  destruct (Nat.eqb_spec (length answers) 1); [done|].
  destruct (count_loop_hashable answers ∅ H) as (counts & E & Hc).
  pose proof (count_loop_positive answers ∅ counts
                ltac:(intros k; by rewrite lookup_empty) E) as Hpos.
  rewrite E. simpl.
  assert (Hk : forall k, counts !! k = Some 1%nat <-> key_count k answers = 1%nat).
  { intros k. specialize (Hc k). specialize (Hpos k).
    rewrite lookup_empty in Hc. simpl in Hc.
    destruct (counts !! k) as [v|]; simpl in Hc; split; intros Hv.
    - injection Hv as ->. lia.
    - f_equal. lia.
    - done.
    - lia. }
  destruct (LonelyMemberCriterion.has_unique counts) eqn:U.
  - left. split; [|done]. apply has_unique_spec in U as [k U]. exists k. by apply Hk.
  - right. split; [|done]. intros k Hkc. apply Hk in Hkc.
    apply not_true_iff_false in U. apply U, has_unique_spec. by exists k.
Qed.

(** For hashable contents (the single-choice and the numeric questions)
    the criterion does what its docstring says: 0 exactly when some content
    is held once, 1 exactly when every content is held at least twice. *)
Lemma lonely_member_hashable (q : Question) (answers : list Answer) :
  answers <> [] ->
  Forall (fun a => validate_answer q a = true) answers ->
  Forall (fun a => hashable (content a)) answers ->
  (score_answers LonelyMember q answers = Ok 0%Q <->
   exists a, a ∈ answers /\ occurrences (content a) answers = 1%nat) /\
  (score_answers LonelyMember q answers = Ok 1%Q <->
   forall a, a ∈ answers -> (2 <= occurrences (content a) answers)%nat).
Proof.
  intros Hne V H. simpl.
  destruct (decide (length answers = 1%nat)) as [Hlen|Hlen].
  - destruct answers as [|a [|b l]]; try done.
    unfold LonelyMemberCriterion.score_answers.
    rewrite (check_answers_ok q [a] V). simpl.
    assert (Ha : occurrences (content a) [a] = 1%nat)
      by (unfold occurrences; simpl; by rewrite py_eq_refl).
    split; split; try done.
    + intros _. exists a. split; [left|done].
    + intros Hall. specialize (Hall a ltac:(left)). lia.
  - destruct (lonely_member_counts q answers V H Hlen) as [[[k Hk] ->]|[Hk ->]].
    + destruct (key_count_pos_elem k answers ltac:(lia)) as (b & x & Hb & Hc & Hx).
      assert (Hocc : occurrences (content b) answers = 1%nat)
        by (rewrite Hc, occurrences_key_count; congruence).
      split; split; try done.
      * intros _. by exists b.
      * intros Hall. specialize (Hall b Hb). lia.
    + split; split; try done.
      * intros (a & Ha & Hocc). exfalso.
        rewrite Forall_forall in H. specialize (H a Ha).
        destruct (content a) as [x|] eqn:Ec; [|done].
        rewrite occurrences_key_count in Hocc. by apply (Hk (atom_key x)).
      * intros _ a Ha. pose proof (occurrences_self a answers Ha) as H1.
        rewrite Forall_forall in H. specialize (H a Ha).
        destruct (content a) as [x|] eqn:Ec; [|done].
        rewrite occurrences_key_count in *. specialize (Hk (atom_key x)). lia.
Qed.

Lemma valid_hashable (q : Question) (a : Answer) :
  hashable_question q -> validate_answer q a = true -> hashable (content a).
Proof.
  destruct q as [i t opts|i t lo hi|i t|i t opts]; simpl; try done.
  - unfold MultipleChoiceQuestion.validate_answer, py_in.
    intros Hopts (o & Ho & Heq)%existsb_exists.
    rewrite Forall_forall in Hopts. specialize (Hopts o).
    destruct o, (content a); simpl in *; try done.
    apply Hopts. by apply list_elem_of_In.
  - intros _. unfold NumericQuestion.validate_answer.
    by destruct (content a) as [[]|].
  - intros _. unfold YesNoQuestion.validate_answer.
    by destruct (content a) as [[]|].
Qed.

(** The same for every question whose valid answers are hashable. *)
Lemma lonely_member_hashable_question (q : Question) (answers : list Answer) :
  hashable_question q -> answers <> [] ->
  Forall (fun a => validate_answer q a = true) answers ->
  (score_answers LonelyMember q answers = Ok 0%Q <->
   exists a, a ∈ answers /\ occurrences (content a) answers = 1%nat) /\
  (score_answers LonelyMember q answers = Ok 1%Q <->
   forall a, a ∈ answers -> (2 <= occurrences (content a) answers)%nat).
Proof.
  intros Hq Hne V. apply lonely_member_hashable; [done..|].
  rewrite Forall_forall in V |- *. intros a Ha.
  by apply (valid_hashable q), V.
Qed.

Lemma count_loop_unhashable (answers : list Answer) (counts : gmap key nat) :
  Exists (fun a => ~ hashable (content a)) answers ->
  LonelyMemberCriterion.count_loop answers counts = Raise TypeError.
Proof.
  intros E. revert counts.
  induction E as [a l Ha|a l _ IH]; intros counts; simpl.
  - destruct (content a); [by destruct Ha|done].
  - destruct (content a); [apply IH|done].
Qed.

(** With two or more valid answers of which one has a list as content, the
    counting dictionary cannot be built. *)
Lemma lonely_member_unhashable (q : Question) (answers : list Answer) :
  Forall (fun a => validate_answer q a = true) answers ->
  (2 <= length answers)%nat ->
  Exists (fun a => ~ hashable (content a)) answers ->
  score_answers LonelyMember q answers = Raise TypeError.
Proof.
  intros V Hlen E. simpl. unfold LonelyMemberCriterion.score_answers.
  rewrite (check_answers_ok q answers V). simpl.
  destruct (Nat.eqb_spec (length answers) 1); [lia|].
  by rewrite (count_loop_unhashable answers ∅ E).
Qed.

(** C3 at a checkbox question: two valid answers with the same content
    ['a'], which is held twice, so that the score should be 1; the call
    raises [TypeError] at [counts.get(ans.content, 0)]. *)
Theorem lonely_member_checkbox_raises :
  validate_answer cb_ab ans_a = true /\
  occurrences (content ans_a) [ans_a; ans_a] = 2%nat /\
  score_answers LonelyMember cb_ab [ans_a; ans_a] = Raise TypeError.
Proof. repeat split; by vm_compute. Qed.

(** ** The survey *)

Lemma init_loop_inv (questions : list Question) (sv : Survey.t) :
  survey_inv sv -> survey_inv (Survey.init_loop questions sv).
Proof.
  revert sv. induction questions as [|q rest IH]; intros sv Hinv; simpl; [done|].
  apply IH. destruct Hinv as (Hid & Hc & Hw). split; [|split]; simpl.
  - intros k q'. destruct (decide (question_id q = k)) as [<-|Hk].
    + rewrite lookup_insert_eq. by intros [= <-].
    + rewrite lookup_insert_ne by done. apply Hid.
  - by rewrite !dom_insert_L, Hc.
  - by rewrite !dom_insert_L, Hw.
Qed.

Lemma init_inv (questions : list Question) : survey_inv (Survey.init questions).
Proof.
  apply init_loop_inv. split; [|split]; simpl; [|done..].
  intros k q. by rewrite lookup_empty.
Qed.

Lemma set_weight_inv (sv : Survey.t) (w : Z) (q : Question) :
  survey_inv sv -> survey_inv (Survey.set_weight sv w q).1.
Proof.
  intros (Hid & Hc & Hw). unfold Survey.set_weight.
  case_bool_decide as Hin; simpl; [|done].
  split; [|split]; simpl; [done..|].
  rewrite dom_insert_L, Hw. rewrite Hw in Hin.
  by apply subseteq_union_1_L, singleton_subseteq_l.
Qed.

Lemma set_criterion_inv (sv : Survey.t) (c : Criterion) (q : Question) :
  survey_inv sv -> survey_inv (Survey.set_criterion sv c q).1.
Proof.
  intros (Hid & Hc & Hw). unfold Survey.set_criterion.
  case_bool_decide as Hin; simpl; [|done].
  split; [|split]; simpl; [done| |done].
  rewrite dom_insert_L, Hc. rewrite Hc in Hin.
  by apply subseteq_union_1_L, singleton_subseteq_l.
Qed.

Lemma sorted_ids_elem (sv : Survey.t) (k : Z) :
  k ∈ Survey.sorted_ids sv <-> is_Some (Survey._questions sv !! k).
Proof.
  unfold Survey.sorted_ids. rewrite merge_sort_Permutation, elem_of_elements.
  apply elem_of_dom.
Qed.

Lemma sorted_ids_NoDup (sv : Survey.t) : NoDup (Survey.sorted_ids sv).
Proof.
  unfold Survey.sorted_ids. rewrite merge_sort_Permutation. apply NoDup_elements.
Qed.

Lemma StronglySorted_le_lt (l : list Z) :
  StronglySorted Z.le l -> NoDup l -> StronglySorted Z.lt l.
Proof.
  induction 1 as [|x l Hs IH Hx]; intros Hnd; constructor.
  - apply IH. by apply NoDup_cons in Hnd as [_ ?].
  - apply NoDup_cons in Hnd as [Hnot _].
    rewrite Forall_forall in Hx |- *. intros y Hy.
    specialize (Hx y Hy). assert (x <> y) by (intros ->; done). lia.
Qed.

Lemma sorted_ids_increasing (sv : Survey.t) :
  StronglySorted Z.lt (Survey.sorted_ids sv).
Proof.
  apply StronglySorted_le_lt; [|apply sorted_ids_NoDup].
  unfold Survey.sorted_ids. apply StronglySorted_merge_sort; apply _.
Qed.

(** Under the invariant the ids of [get_questions] are the sorted keys. *)
Lemma get_questions_ids (sv : Survey.t) :
  survey_inv sv ->
  map question_id (Survey.get_questions sv) = Survey.sorted_ids sv.
Proof.
  intros (Hid & _). unfold Survey.get_questions.
  assert (H : forall k, k ∈ Survey.sorted_ids sv ->
                        is_Some (Survey._questions sv !! k))
    by (intros k; apply sorted_ids_elem).
  induction (Survey.sorted_ids sv) as [|k l IH]; simpl; [done|].
  destruct (H k ltac:(left)) as [q Hq]. rewrite Hq. simpl.
  rewrite (Hid k q Hq). f_equal. apply IH. intros k' Hk'. apply H. by right.
Qed.

Lemma get_questions_elem (sv : Survey.t) (q : Question) :
  q ∈ Survey.get_questions sv <->
  exists k, Survey._questions sv !! k = Some q.
Proof.
  unfold Survey.get_questions. rewrite list_elem_of_omap. split.
  - intros (k & _ & Hk). by exists k.
  - intros (k & Hk). exists k. split; [|done]. apply sorted_ids_elem. by exists q.
Qed.

Lemma get_questions_length (sv : Survey.t) :
  length (Survey.get_questions sv) = Survey.len sv.
Proof.
  unfold Survey.get_questions, Survey.len.
  assert (H : forall k, k ∈ Survey.sorted_ids sv ->
                        is_Some (Survey._questions sv !! k))
    by (intros k; apply sorted_ids_elem).
  transitivity (length (Survey.sorted_ids sv)).
  - induction (Survey.sorted_ids sv) as [|k l IH]; simpl; [done|].
    destruct (H k ltac:(left)) as [q Hq]. rewrite Hq. simpl. f_equal.
    apply IH. intros k' Hk'. apply H. by right.
  - unfold Survey.sorted_ids. rewrite merge_sort_Permutation.
    rewrite <- size_dom. reflexivity.
Qed.

Lemma bind_Ok {A B : Type} (a : A) (k : A -> result B) : (Ok a ≫= k) = k a.
Proof. reflexivity. Qed.

Lemma bind_Raise {A B : Type} (e : exn) (k : A -> result B) :
  (Raise e ≫= k) = Raise e.
Proof. reflexivity. Qed.

Lemma result_equiv_Ok_r (r : result Q) (y : Q) :
  result_equiv r (Ok y) <-> exists x, r = Ok x /\ (x == y)%Q.
Proof.
  destruct r as [x|e]; unfold result_equiv; split.
  - intros H. by exists x.
  - by intros (x' & [= <-] & H).
  - done.
  - by intros (x' & [=] & _).
Qed.

Lemma result_equiv_Raise_r (r : result Q) (e : exn) :
  result_equiv r (Raise e) <-> r = Raise e.
Proof.
  destruct r as [x|e']; unfold result_equiv; split; try done.
  - by intros ->.
  - by intros [= ->].
Qed.

Lemma get_ans_gathered (sts : list Student.t) (q : Question) :
  (forall s, s ∈ sts -> is_Some (Student.get_answer s q)) ->
  Survey._get_ans sts q = Some (gathered sts q).
Proof.
  unfold gathered. induction sts as [|s rest IH]; intros H; simpl; [done|].
  destruct (H s ltac:(left)) as [a Ha]. rewrite Ha. simpl.
  rewrite IH; [done|]. intros s' Hs'. apply H. by right.
Qed.

Lemma get_ans_missing (sts : list Student.t) (q : Question) (s : Student.t) :
  s ∈ sts -> Student.get_answer s q = None -> Survey._get_ans sts q = None.
Proof.
  induction 1 as [s l|s s' l _ IH]; intros Hs; simpl.
  - by rewrite Hs.
  - destruct (Student.get_answer s' q); [|done]. by rewrite IH.
Qed.

Lemma get_ans_elem (sts : list Student.t) (q : Question) (answers : list Answer)
  (a : Answer) :
  Survey._get_ans sts q = Some answers ->
  a ∈ answers <-> exists s, s ∈ sts /\ Student.get_answer s q = Some a.
Proof.
  revert answers. induction sts as [|s rest IH]; intros answers; simpl.
  - intros [= <-]. split; [by intros ?%elem_of_nil|].
    by intros (s & ?%elem_of_nil & _).
  - destruct (Student.get_answer s q) as [a0|] eqn:E0; [|done].
    destruct (Survey._get_ans rest q) as [l|]; [|done].
    intros [= <-]. rewrite elem_of_cons, (IH l eq_refl). split.
    + intros [->|(s' & Hs' & E)]; [exists s|exists s']; split; auto; by constructor.
    + intros (s' & Hs' & E). apply elem_of_cons in Hs' as [->|Hs'].
      * left. congruence.
      * right. by exists s'.
Qed.

(** The loop of [score_students] against the sum of the weighted scores:
    when every student has an answer to each question still to visit, the
    loop from [total] ends as the sum does, on [(total + sum) / n]. *)
Lemma score_loop_sum (sv : Survey.t) (sts : list Student.t) (qs : list Question)
  (total : Q) :
  Survey.len sv <> 0%nat ->
  (forall q s, q ∈ qs -> s ∈ sts -> is_Some (Student.get_answer s q)) ->
  (forall q, q ∈ qs -> is_Some (Survey._criteria sv !! question_id q) /\
                       is_Some (Survey._weights sv !! question_id q)) ->
  result_equiv
    (Survey.score_loop sv sts qs total)
    (t ← sum_results (map (weighted_score sv sts) qs);
     Ok ((total + t) / float_of_len (Survey.len sv))%Q).
Proof.
  intros Hn. revert total.
  induction qs as [|q rest IH]; intros total Hans Hkeys; simpl.
  - rewrite py_div_ok by (by apply float_of_len_nonzero). simpl.
    unfold Survey.len. by rewrite Qplus_0_r.
  - rewrite (get_ans_gathered sts q) by (intros s Hs; apply Hans; [left|done]).
    destruct (Hkeys q ltac:(left)) as [[c Hc] [w Hw]].
    assert (Hws : weighted_score sv sts q
                  = s ← score_answers c q (gathered sts q);
                    Ok (s * inject_Z w)%Q)
      by (unfold weighted_score; by rewrite Hc, Hw).
    rewrite Hws.
    unfold Survey._get_criterion, Survey._get_weight, Survey.py_getitem.
    rewrite Hc, Hw, bind_Ok.
    destruct (score_answers c q (gathered sts q)) as [s|e];
      rewrite ?bind_Ok, ?bind_Raise; [|done].
    specialize (IH (total + s * float_of_int w)%Q
                  ltac:(intros q' s' Hq' Hs'; apply Hans; [by right|done])
                  ltac:(intros q' Hq'; apply Hkeys; by right)).
    destruct (sum_results (map (weighted_score sv sts) rest)) as [t|e];
      rewrite ?bind_Ok, ?bind_Raise in *.
    + apply result_equiv_Ok_r in IH as (v & -> & Hv). apply result_equiv_Ok_r.
      exists v. split; [done|]. rewrite Hv. unfold float_of_int.
      by rewrite Qplus_assoc.
    + exact IH.
Qed.

(** With valid answers throughout, the loop raises no [InvalidAnswerError]:
    the handler of [score_students] is not entered. *)
Lemma score_loop_valid_not_invalid (sv : Survey.t) (sts : list Student.t)
  (qs : list Question) (total : Q) :
  (forall q s a, q ∈ qs -> s ∈ sts -> Student.get_answer s q = Some a ->
                 validate_answer q a = true) ->
  not_invalid (Survey.score_loop sv sts qs total).
Proof.
  revert total. induction qs as [|q rest IH]; intros total Hv; simpl.
  - apply py_div_not_invalid.
  - destruct (Survey._get_ans sts q) as [answers|] eqn:Ea; [|done].
    apply not_invalid_bind.
    { unfold Survey._get_criterion, Survey.py_getitem.
      by destruct (Survey._criteria sv !! question_id q). }
    intros c. apply not_invalid_bind.
    { apply score_answers_valid_not_invalid, check_answers_ok.
      apply Forall_forall. intros a Ha.
      apply (get_ans_elem sts q answers a Ea) in Ha as (s & Hs & Hsa).
      apply (Hv q s a); [left|done..]. }
    intros s. apply not_invalid_bind.
    { unfold Survey._get_weight, Survey.py_getitem.
      by destruct (Survey._weights sv !! question_id q). }
    intros w. apply IH. intros q' s' a Hq'. apply Hv. by right.
Qed.

Lemma catch_invalid_id {A : Type} (r : result A) (h : A) :
  not_invalid r -> catch_invalid r h = r.
Proof. unfold not_invalid. destruct r as [a|[]]; simpl; done. Qed.

Lemma survey_keys (sv : Survey.t) (q : Question) :
  survey_inv sv -> q ∈ Survey.get_questions sv ->
  is_Some (Survey._criteria sv !! question_id q) /\
  is_Some (Survey._weights sv !! question_id q).
Proof.
  intros (Hid & Hc & Hw) (k & Hk)%get_questions_elem.
  rewrite (Hid k q Hk). rewrite <- !elem_of_dom, Hc, Hw.
  split; apply elem_of_dom; by exists q.
Qed.

(** ** The defensive returns of [score_students] *)

Lemma score_students_not_invalid (sv : Survey.t) (sts : list Student.t) :
  not_invalid (Survey.score_students sv sts).
Proof.
  unfold Survey.score_students, not_invalid.
  destruct (size (Survey._questions sv) =? 0)%nat; [done|].
  by destruct (Survey.score_loop sv sts (Survey.get_questions sv) 0%Q) as [|[]].
Qed.

Lemma score_students_no_questions (sv : Survey.t) (sts : list Student.t) :
  Survey.len sv = 0%nat -> Survey.score_students sv sts = Ok 0%Q.
Proof. unfold Survey.score_students, Survey.len. by intros ->. Qed.

(** An [InvalidAnswerError] of the loop is turned into the score 0. *)
Lemma score_students_catches (sv : Survey.t) (sts : list Student.t) :
  Survey.len sv <> 0%nat ->
  Survey.score_loop sv sts (Survey.get_questions sv) 0%Q
  = Raise InvalidAnswerError ->
  Survey.score_students sv sts = Ok 0%Q.
Proof.
  unfold Survey.score_students, Survey.len. intros Hn ->.
  by destruct (Nat.eqb_spec (size (Survey._questions sv)) 0).
Qed.

Lemma score_loop_bad (sv : Survey.t) (sts : list Student.t) (qs : list Question)
  (total : Q) :
  (forall q, q ∈ qs -> q ∈ Survey.get_questions sv) ->
  survey_inv sv -> scores_or_invalid sv sts ->
  Exists (bad_question sts) qs ->
  Survey.score_loop sv sts qs total = Ok 0%Q \/
  Survey.score_loop sv sts qs total = Raise InvalidAnswerError.
Proof.
  intros Hsub Hinv Hsafe Hbad. revert total Hsub.
  induction qs as [|q rest IH]; intros total Hsub; [by apply Exists_nil in Hbad|].
  simpl. destruct (Survey._get_ans sts q) as [answers|] eqn:Ea; [|by left].
  destruct (survey_keys sv q Hinv (Hsub q ltac:(left))) as [[c Hc] [w Hw]].
  unfold Survey._get_criterion, Survey._get_weight, Survey.py_getitem.
  rewrite Hc, Hw, bind_Ok.
  destruct (Hsafe q c answers (Hsub q ltac:(left)) Hc Ea) as [[r Hr]| ->];
    [|by right].
  rewrite Hr, !bind_Ok.
  apply Exists_cons in Hbad as [(s & Hs & Hsq)|Hbad].
  - exfalso. destruct (Student.get_answer s q) as [a|] eqn:Esa.
    + assert (Hin : a ∈ answers)
        by (apply (get_ans_elem sts q answers a Ea); by exists s).
      assert (Hinv' : score_answers c q answers = Raise InvalidAnswerError).
      { apply score_answers_some_invalid, check_answers_invalid, Exists_exists.
        by exists a. }
      congruence.
    + rewrite (get_ans_missing sts q s Hs Esa) in Ea. discriminate.
  - apply IH; [done|]. intros q' Hq'. apply Hsub. by right.
Qed.

(** When no criterion call fails with another error, a missing or an
    invalid answer to any question makes [score_students] return 0. *)
Lemma score_students_bad (sv : Survey.t) (sts : list Student.t) (q : Question) :
  survey_inv sv -> scores_or_invalid sv sts ->
  q ∈ Survey.get_questions sv -> bad_question sts q ->
  Survey.score_students sv sts = Ok 0%Q.
Proof.
  intros Hinv Hsafe Hq Hbad. unfold Survey.score_students.
  destruct (size (Survey._questions sv) =? 0)%nat; [done|].
  destruct (score_loop_bad sv sts (Survey.get_questions sv) 0%Q) as [-> | ->];
    try done.
  apply Exists_exists. by exists q.
Qed.

Lemma get_ans_length (sts : list Student.t) (q : Question) (answers : list Answer) :
  Survey._get_ans sts q = Some answers -> length answers = length sts.
Proof.
  revert answers. induction sts as [|s rest IH]; intros answers; simpl.
  - by intros [= <-].
  - destruct (Student.get_answer s q); [|done].
    destruct (Survey._get_ans rest q) as [l|]; [|done].
    intros [= <-]. simpl. f_equal. by apply IH.
Qed.

Lemma safe_scores_or_invalid (sv : Survey.t) (sts : list Student.t) :
  safe_survey sv -> sts <> [] -> scores_or_invalid sv sts.
Proof.
  intros Hsafe Hne q c answers Hq Hc Ea.
  destruct (Hsafe q c Hq Hc) as [Hpre Hl].
  destruct (check_answers_cases q answers) as [[_ V]|[Hi _]];
    [left|right; by apply score_answers_some_invalid].
  assert (Hne' : answers <> []).
  { apply get_ans_length in Ea. destruct sts, answers; simpl in *; congruence. }
  destruct (homogeneous_valid q answers Hpre Hne' V) as (h & Hh & _).
  destruct c; simpl.
  - by exists h.
  - unfold HeterogeneousCriterion.score_answers. rewrite Hh. by eexists.
  - assert (H : Forall (fun a => hashable (content a)) answers).
    { rewrite Forall_forall in V |- *. intros a Ha.
      apply (valid_hashable q); [by apply Hl|by apply V]. }
    destruct (decide (length answers = 1%nat)) as [Hlen|Hlen].
    + unfold LonelyMemberCriterion.score_answers.
      rewrite (check_answers_ok q answers V), bind_Ok.
      apply Nat.eqb_eq in Hlen. rewrite Hlen. by eexists.
    + destruct (lonely_member_counts q answers V H Hlen) as [[_ ->]|[_ ->]];
        by eexists.
Qed.

(** With valid answers to every question, [score_students] ends as the
    weighted mean does. *)
Lemma score_students_equiv (sv : Survey.t) (sts : list Student.t) :
  survey_inv sv -> (1 <= Survey.len sv)%nat ->
  (forall q s, q ∈ Survey.get_questions sv -> s ∈ sts ->
     exists a, Student.get_answer s q = Some a /\ validate_answer q a = true) ->
  result_equiv (Survey.score_students sv sts) (weighted_mean sv sts).
Proof.
  intros Hinv Hn Hans.
  unfold Survey.score_students, weighted_mean.
  destruct (Nat.eqb_spec (size (Survey._questions sv)) 0) as [E|_];
    [unfold Survey.len in Hn; lia|].
  rewrite catch_invalid_id.
  2:{ apply score_loop_valid_not_invalid. intros q s a Hq Hs Ha.
      destruct (Hans q s Hq Hs) as (a' & Ha' & Hv). congruence. }
  pose proof (score_loop_sum sv sts (Survey.get_questions sv) 0%Q
                ltac:(lia)) as H.
  assert (Hequiv : forall r, result_equiv r
             (t ← sum_results (map (weighted_score sv sts) (Survey.get_questions sv));
              Ok ((0 + t) / float_of_len (Survey.len sv))%Q) ->
           result_equiv r
             (t ← sum_results (map (weighted_score sv sts) (Survey.get_questions sv));
              Ok (t / float_of_len (Survey.len sv))%Q)).
  { intros r. destruct (sum_results _) as [t|e];
      rewrite ?bind_Ok, ?bind_Raise; [|done].
    rewrite !result_equiv_Ok_r. intros (v & -> & Hv). exists v.
    split; [done|]. by rewrite Hv, Qplus_0_l. }
  apply Hequiv, H.
  - intros q s Hq Hs. destruct (Hans q s Hq Hs) as (a & -> & _). by eexists.
  - intros q Hq. by apply survey_keys.
Qed.

Lemma sum_results_Ok (rs : list (result Q)) (xs : list Q) :
  Forall2 (fun r x => r = Ok x) rs xs -> sum_results rs = Ok (sum_list xs).
Proof.
  induction 1 as [|r x rs xs -> _ IH]; simpl; [done|].
  by rewrite IH, !bind_Ok.
Qed.

(** On a safe survey every weighted score is defined when the answers are
    valid. *)
Lemma weighted_scores_defined (sv : Survey.t) (sts : list Student.t)
  (qs : list Question) :
  survey_inv sv -> safe_survey sv -> sts <> [] ->
  (forall q, q ∈ qs -> q ∈ Survey.get_questions sv) ->
  (forall q s, q ∈ qs -> s ∈ sts ->
     exists a, Student.get_answer s q = Some a /\ validate_answer q a = true) ->
  exists xs, Forall2 (fun q x => weighted_score sv sts q = Ok x) qs xs.
Proof.
  intros Hinv Hsafe Hne Hsub Hans.
  induction qs as [|q rest IH]; [exists []; constructor|].
  destruct IH as [xs Hxs].
  { intros q' Hq'. apply Hsub. by right. }
  { intros q' s Hq'. apply Hans. by right. }
  pose proof (Hsub q ltac:(left)) as Hq.
  destruct (survey_keys sv q Hinv Hq) as [[c Hc] [w Hw]].
  assert (Hg : Survey._get_ans sts q = Some (gathered sts q)).
  { apply get_ans_gathered. intros s Hs.
    destruct (Hans q s ltac:(left) Hs) as (a & -> & _). by eexists. }
  assert (Hv : check_answers q (gathered sts q) = Ok tt).
  { apply check_answers_ok, Forall_forall. intros a Ha.
    apply (get_ans_elem sts q _ a Hg) in Ha as (s & Hs & Hsa).
    destruct (Hans q s ltac:(left) Hs) as (a' & Ha' & Hva). congruence. }
  destruct (safe_scores_or_invalid sv sts Hsafe Hne q c _ Hq Hc Hg)
    as [[r Hr]|Hr].
  - exists ((r * inject_Z w)%Q :: xs). constructor; [|done].
    unfold weighted_score. by rewrite Hc, Hw, Hr.
  - by apply (score_answers_valid_not_invalid c) in Hv.
Qed.

(** The weighted mean, where the criterion calls return. For a survey
    with at least one question and a non-empty list of students who each
    have a valid answer to every question: [get_questions] lists every
    question of the survey by strictly increasing id; [score_students]
    ends as the sum over these questions of criterion score times weight,
    divided by the number of questions, does; when the weighted scores of
    the questions are [xs], it returns the sum of [xs] divided by the
    number of questions; and on a safe survey the weighted scores are
    defined. *)
Theorem score_students_weighted_mean (sv : Survey.t) (sts : list Student.t) :
  survey_inv sv -> (1 <= Survey.len sv)%nat -> sts <> [] ->
  (forall q s, q ∈ Survey.get_questions sv -> s ∈ sts ->
     exists a, Student.get_answer s q = Some a /\ validate_answer q a = true) ->
  StronglySorted Z.lt (map question_id (Survey.get_questions sv)) /\
  (forall k q, Survey._questions sv !! k = Some q -> q ∈ Survey.get_questions sv) /\
  length (Survey.get_questions sv) = Survey.len sv /\
  result_equiv (Survey.score_students sv sts) (weighted_mean sv sts) /\
  (forall xs,
     Forall2 (fun q x => weighted_score sv sts q = Ok x)
       (Survey.get_questions sv) xs ->
     exists r, Survey.score_students sv sts = Ok r /\
               (r == sum_list xs / float_of_len (Survey.len sv))%Q) /\
  (safe_survey sv ->
   exists xs, Forall2 (fun q x => weighted_score sv sts q = Ok x)
                (Survey.get_questions sv) xs).
Proof.
  intros Hinv Hn Hne Hans.
  pose proof (score_students_equiv sv sts Hinv Hn Hans) as Heq.
  split; [rewrite get_questions_ids by done; apply sorted_ids_increasing|].
  split; [intros k q Hq; apply get_questions_elem; by exists k|].
  split; [apply get_questions_length|].
  split; [done|]. split.
  - intros xs Hxs. unfold weighted_mean in Heq.
    rewrite (sum_results_Ok _ xs), bind_Ok in Heq
      by (by apply Forall2_fmap_l).
    by apply result_equiv_Ok_r in Heq.
  - intros Hsafe. by apply weighted_scores_defined.
Qed.

(** The two students differ as much as they can on [q_rate] (score 0,
    weight 1) and agree on [q_agree] (score 1, weight 3): (0 + 3) / 2, so
    the divisor is the number of questions and not the total weight 4. *)
Example score_students_two :
  exists r, Survey.score_students survey_two pair_students = Ok r /\ (r == 3 # 2)%Q.
Proof. eexists. split; [vm_compute; reflexivity|reflexivity]. Qed.

Lemma score_students_weighted_mean_witness :
  StronglySorted Z.lt (map question_id (Survey.get_questions survey_two)) /\
  (forall k q, Survey._questions survey_two !! k = Some q ->
               q ∈ Survey.get_questions survey_two) /\
  length (Survey.get_questions survey_two) = Survey.len survey_two /\
  result_equiv (Survey.score_students survey_two pair_students)
    (weighted_mean survey_two pair_students) /\
  (forall xs,
     Forall2 (fun q x => weighted_score survey_two pair_students q = Ok x)
       (Survey.get_questions survey_two) xs ->
     exists r, Survey.score_students survey_two pair_students = Ok r /\
               (r == sum_list xs / float_of_len (Survey.len survey_two))%Q) /\
  (safe_survey survey_two ->
   exists xs, Forall2 (fun q x => weighted_score survey_two pair_students q = Ok x)
                (Survey.get_questions survey_two) xs).
Proof.
  apply (score_students_weighted_mean survey_two pair_students).
  - apply set_weight_inv, init_inv.
  - vm_compute. lia.
  - discriminate.
  - assert (Hq : Survey.get_questions survey_two = [q_rate; q_agree])
      by (vm_compute; reflexivity).
    rewrite Hq. intros q s Hq' Hs.
    repeat (apply elem_of_cons in Hq' as [->|Hq']);
      [| |by apply elem_of_nil in Hq'];
      (repeat (apply elem_of_cons in Hs as [->|Hs]);
         [| |by apply elem_of_nil in Hs]);
      eexists; (split; [vm_compute; reflexivity|vm_compute; reflexivity]).
Defined.

(** C1 at a survey of one checkbox question under the lonely-member
    criterion and two students who both tick ['a']: the survey keeps its
    invariants and has a question, the list of students is not empty,
    every student has a valid answer to every question of the survey,
    and [score_students] raises [TypeError] where the weighted mean would
    be 1: a list cannot be a key of the [counts] dictionary of the
    criterion, and [score_students] catches [InvalidAnswerError] only. *)
Theorem score_students_valid_raises :
  survey_inv survey_lonely /\
  (1 <= Survey.len survey_lonely)%nat /\
  lonely_students <> [] /\
  (forall q s, q ∈ Survey.get_questions survey_lonely -> s ∈ lonely_students ->
     exists a, Student.get_answer s q = Some a /\ validate_answer q a = true) /\
  Survey.score_students survey_lonely lonely_students = Raise TypeError.
Proof.
  split; [apply set_criterion_inv, init_inv|].
  split; [vm_compute; lia|]. split; [discriminate|]. split; [|by vm_compute].
  assert (Hq : Survey.get_questions survey_lonely = [q_tick])
    by (vm_compute; reflexivity).
  rewrite Hq. intros q s ->%list_elem_of_singleton Hs.
  exists ans_a.
  repeat (apply elem_of_cons in Hs as [->|Hs]); [| |by apply elem_of_nil in Hs];
    (split; vm_compute; reflexivity).
Qed.

(** C2 at a list in which the first student lacks an answer to [q_yes]:
    both students have the valid answer ['a'] to the checkbox question,
    which is scored first, and the [TypeError] of the lonely-member
    criterion leaves [score_students] before the missing answer is seen. *)
Theorem score_students_missing_raises :
  survey_inv survey_tick /\
  q_yes ∈ Survey.get_questions survey_tick /\
  Student.get_answer (ticked (Student.init 1 "A")) q_yes = None /\
  Survey.score_students survey_tick tick_students = Raise TypeError.
Proof.
  split; [apply set_criterion_inv, init_inv|].
  split; [apply get_questions_elem; exists 2; by vm_compute|].
  split; by vm_compute.
Qed.

(** ** The groupers *)





Lemma score_loop_total (sv : Survey.t) (sts : list Student.t) (qs : list Question)
  (total : Q) :
  (forall q, q ∈ qs -> q ∈ Survey.get_questions sv) ->
  survey_inv sv -> scores_or_invalid sv sts -> Survey.len sv <> 0%nat ->
  (exists r, Survey.score_loop sv sts qs total = Ok r) \/
  Survey.score_loop sv sts qs total = Raise InvalidAnswerError.
Proof.
  intros Hsub Hinv Hsafe Hn. revert total Hsub.
  induction qs as [|q rest IH]; intros total Hsub; simpl.
  - left. rewrite py_div_ok by (by apply float_of_len_nonzero). by eexists.
  - destruct (Survey._get_ans sts q) as [answers|] eqn:Ea; [|left; by eexists].
    destruct (survey_keys sv q Hinv (Hsub q ltac:(left))) as [[c Hc] [w Hw]].
    unfold Survey._get_criterion, Survey._get_weight, Survey.py_getitem.
    rewrite Hc, Hw, bind_Ok.
    destruct (Hsafe q c answers (Hsub q ltac:(left)) Hc Ea) as [[r ->]| ->];
      [|by right].
    rewrite !bind_Ok. apply IH. intros q' Hq'. apply Hsub. by right.
Qed.

(** On a safe survey [score_students] always returns a score. *)
Lemma safe_scorable (sv : Survey.t) :
  survey_inv sv -> safe_survey sv -> scorable sv.
Proof.
  intros Hinv Hsafe sts Hne. unfold Survey.score_students.
  destruct (Nat.eqb_spec (size (Survey._questions sv)) 0) as [|Hn];
    [by eexists|].
  destruct (score_loop_total sv sts (Survey.get_questions sv) 0%Q)
    as [[r ->]| ->]; simpl; try done; try by eexists.
  by apply safe_scores_or_invalid.
Qed.












Example candidates_two_pairs :
  GreedyGrouper.candidates
    (Grouping.get_groups (AlphaGrouper.make_grouping 2 four_students agree_survey))
  = [(0, 1, 0, 0); (0, 1, 0, 1); (0, 1, 1, 0); (0, 1, 1, 1)]%nat.
Proof. by vm_compute. Qed.

(** The alphabetical grouping is [A, B], [C, D] and scores 0; the first
    pass of the greedy grouper exchanges A and D, the first exchange that
    reaches the score 1, and the second pass finds nothing better. *)
Example greedy_four_students :
  map (fun g => map Student.name (Group.get_members g))
    (Grouping.get_groups (AlphaGrouper.make_grouping 2 four_students agree_survey))
  = [["A"; "B"]; ["C"; "D"]]%string /\
  (exists a, Survey.score_grouping agree_survey
               (AlphaGrouper.make_grouping 2 four_students agree_survey) = Ok a /\
             (a == 0)%Q) /\
  exists g,
    GreedyGrouper.make_grouping 2 10 four_students agree_survey = Ok g /\
    map (fun g => map Student.name (Group.get_members g)) (Grouping.get_groups g)
    = [["D"; "B"]; ["C"; "A"]]%string /\
    exists b, Survey.score_grouping agree_survey g = Ok b /\ (b == 1)%Q.
Proof.
  split; [by vm_compute|].
  split; [eexists; split; [vm_compute; reflexivity|reflexivity]|].
  eexists. split; [vm_compute; reflexivity|]. split; [by vm_compute|].
  eexists. split; [vm_compute; reflexivity|reflexivity].
Qed.


(** * Further properties *)

(** ** Students *)

(** After [set_answer] for a question, [get_answer] for a question with
    the same id returns the new answer, also when one was recorded before;
    for a question with another id it returns what it returned before; the
    id and the name are as they were, and [has_answer] holds afterwards
    exactly for the questions it held for and for those with the id of
    the question answered: no recorded answer is lost. *)
Theorem set_answer_get_answer (s : Student.t) (q q' : Question) (a : Answer) :
  Student.get_answer (Student.set_answer s q a) q'
  = (if decide (question_id q' = question_id q) then Some a
     else Student.get_answer s q') /\
  Student.id (Student.set_answer s q a) = Student.id s /\
  Student.name (Student.set_answer s q a) = Student.name s /\
  Student.has_answer (Student.set_answer s q a) q'
  = Student.has_answer s q' || bool_decide (question_id q' = question_id q).
Proof.
  unfold Student.get_answer, Student.set_answer, Student.has_answer. simpl.
  split; [|split; [done|split; [done|]]].
  - case_decide as E.
    + rewrite E. apply lookup_insert_eq.
    + by apply lookup_insert_ne.
  - apply eq_true_iff_eq.
    rewrite orb_true_iff, !bool_decide_eq_true, dom_insert_L,
      elem_of_union, elem_of_singleton.
    tauto.
Qed.

(** A new student has no answer. *)
Example test_student_get_none (q : Question) :
  Student.get_answer (Student.init 1 "Aman") q = None /\
  Student.has_answer (Student.init 1 "Aman") q = false.
Proof. split; [apply lookup_empty|]. by apply bool_decide_eq_false. Qed.

(** ** Courses *)

Lemma enroll_conflict_iff (self : Course.t) (batch : list Student.t) :
  existsb (fun student =>
             bool_decide (Student.id student
                          ∈ (list_to_set (map Student.id (Course.students self))
                             : gset Z))) batch = true <->
  exists s, s ∈ batch /\ Student.id s ∈ course_ids self.
Proof.
  rewrite existsb_exists. unfold course_ids. split.
  - intros (s & Hs & Hin). exists s. split; [by apply list_elem_of_In|].
    by apply bool_decide_eq_true, elem_of_list_to_set in Hin.
  - intros (s & Hs & Hin). exists s. split; [by apply list_elem_of_In|].
    by apply bool_decide_eq_true, elem_of_list_to_set.
Qed.

(** [enroll_students] is all or nothing: when a student of the batch has
    the id of an enrolled student the course is unchanged, otherwise the
    whole batch is appended to the students, in its order; the name of the
    course is never changed. *)
Theorem enroll_students_all_or_nothing (self : Course.t)
  (batch : list Student.t) :
  Course.name (Course.enroll_students self batch).1 = Course.name self /\
  (((exists s, s ∈ batch /\ Student.id s ∈ course_ids self) /\
    (Course.enroll_students self batch).1 = self) \/
   ((forall s, s ∈ batch -> Student.id s ∉ course_ids self) /\
    Course.students (Course.enroll_students self batch).1
    = Course.students self ++ batch)).
Proof.
  unfold Course.enroll_students.
  destruct (existsb _ batch) eqn:E; simpl.
  - split; [done|]. left. split; [|done]. by apply enroll_conflict_iff.
  - split; [done|]. right. split; [|done]. intros s Hs Hin.
    apply not_true_iff_false in E. apply E, enroll_conflict_iff. by exists s.
Qed.

(** The representation invariant of [Course]: when no two enrolled
    students share an id and no two students of the batch do, no two
    students share an id after [enroll_students]. *)
Theorem enroll_students_unique_ids (self : Course.t) (batch : list Student.t) :
  NoDup (course_ids self) -> NoDup (map Student.id batch) ->
  NoDup (course_ids (Course.enroll_students self batch).1).
Proof.
  intros Hc Hb. unfold Course.enroll_students.
  destruct (existsb _ batch) eqn:E; simpl; [done|].
  unfold course_ids in *. simpl. rewrite map_app.
  apply NoDup_app. split; [done|]. split; [|done].
  intros i Hi (s & -> & Hs)%list_elem_of_fmap.
  apply not_true_iff_false in E. apply E, enroll_conflict_iff. by exists s.
Qed.

Lemma enroll_students_unique_ids_witness :
  NoDup (course_ids (Course.enroll_students course_A batch_C).1).
Proof.
  apply (enroll_students_unique_ids course_A batch_C);
    apply (bool_decide_unpack _); vm_compute; exact I.
Defined.

(** ** Sorting students *)

Lemma key_leb_total (a : attribute) (x y : Student.t) :
  key_leb a x y = false -> key_leb a y x = true.
Proof.
  destruct a; simpl.
  - intros H%Z.leb_gt. apply Z.leb_le. lia.
  - intros H. destruct (String.leb_total (Student.name x) (Student.name y));
      congruence.
Qed.

Lemma key_leb_trans (a : attribute) (x y z : Student.t) :
  key_leb a x y = true -> key_leb a y z = true -> key_leb a x z = true.
Proof.
  destruct a; simpl.
  - rewrite !Z.leb_le. lia.
  - intros H1%Is_true_true H2%Is_true_true. apply Is_true_true.
    exact (transitivity (R := String.le) H1 H2).
Qed.

Lemma sorted_insert_perm (a : attribute) (x : Student.t) (l : list Student.t) :
  sorted_insert a x l ≡ₚ x :: l.
Proof.
  induction l as [|y l IH]; simpl; [done|].
  destruct (key_leb a x y); [done|]. rewrite IH. apply Permutation_swap.
Qed.

Lemma sorted_insert_sorted (a : attribute) (x : Student.t) (l : list Student.t) :
  Sorted (key_le a) l -> Sorted (key_le a) (sorted_insert a x l).
Proof.
  induction 1 as [|y l Hs IH Hhd]; simpl; [by repeat constructor|].
  destruct (key_leb a x y) eqn:E.
  - constructor; [by constructor|]. by constructor.
  - constructor; [done|].
    destruct l as [|z l]; simpl.
    + constructor. by apply key_leb_total.
    + destruct (key_leb a x z); constructor.
      * by apply key_leb_total.
      * by inversion Hhd.
Qed.

Lemma sorted_insert_stable (a : attribute) (s x : Student.t)
  (l : list Student.t) :
  List.filter (same_key a s) (sorted_insert a x l)
  = List.filter (same_key a s) (x :: l).
Proof.
  induction l as [|y l IH]; [done|].
  cbn [sorted_insert]. destruct (key_leb a x y) eqn:E; [done|].
  cbn [List.filter] in *. rewrite IH.
  destruct (same_key a s x) eqn:Ex; [|done].
  destruct (same_key a s y) eqn:Ey; [|done].
  exfalso. unfold same_key in Ex, Ey.
  apply andb_true_iff in Ex as [_ Hxs]. apply andb_true_iff in Ey as [Hsy _].
  rewrite (key_leb_trans a x s y Hxs Hsy) in E. discriminate.
Qed.

Lemma sort_students_perm (lst : list Student.t) (a : attribute) :
  sort_students lst a ≡ₚ lst.
Proof.
  unfold sort_students. induction lst as [|x l IH]; simpl; [done|].
  by rewrite sorted_insert_perm, IH.
Qed.

Lemma sort_students_sorted (lst : list Student.t) (a : attribute) :
  Sorted (key_le a) (sort_students lst a).
Proof.
  unfold sort_students. induction lst as [|x l IH]; simpl; [constructor|].
  by apply sorted_insert_sorted.
Qed.

Lemma sort_students_filter (lst : list Student.t) (a : attribute) (s : Student.t) :
  List.filter (same_key a s) (sort_students lst a)
  = List.filter (same_key a s) lst.
Proof.
  unfold sort_students. induction lst as [|x l IH]; simpl; [done|].
  rewrite sorted_insert_stable. cbn [List.filter]. by rewrite IH.
Qed.

(** [sort_students] returns the stable sort of the list by the attribute:
    the same students, by non-decreasing key, and the students with the
    same key as any given student in the order they have in the input. *)
Theorem sort_students_stable_sort (lst : list Student.t) (a : attribute) :
  sort_students lst a ≡ₚ lst /\
  Sorted (key_le a) (sort_students lst a) /\
  forall s, List.filter (same_key a s) (sort_students lst a)
            = List.filter (same_key a s) lst.
Proof.
  split; [apply sort_students_perm|]. split; [apply sort_students_sorted|].
  intros s. apply sort_students_filter.
Qed.

(** The lists of the docstring of [sort_students]: by id as it says; by
    name the list is Diane, Marcello, Mario, since 'Marcello' < 'Mario'. *)
Example sort_students_docstring :
  sort_students [marcello; mario; diane] attr_id = [marcello; diane; mario] /\
  sort_students [marcello; diane; mario] attr_name = [diane; marcello; mario].
Proof. split; by vm_compute. Qed.

(** Under the invariant of [Course] that no two students share an id,
    [get_students] returns the students of the course, each once, by
    strictly increasing id. *)
Theorem get_students_sorted (self : Course.t) :
  NoDup (course_ids self) ->
  Course.get_students self ≡ₚ Course.students self /\
  StronglySorted Z.lt (map Student.id (Course.get_students self)).
Proof.
  intros Hnd. unfold Course.get_students.
  split; [apply sort_students_perm|].
  apply StronglySorted_le_lt.
  - apply Sorted_StronglySorted; [apply _|].
    apply (Sorted_fmap Student.id (key_le attr_id) Z.le);
      [|apply sort_students_sorted].
    intros x y H. by apply Z.leb_le.
  - unfold course_ids in Hnd.
    by rewrite (sort_students_perm (Course.students self) attr_id).
Qed.

Lemma get_students_sorted_witness :
  Course.get_students (Course.enroll_students course_A batch_C).1
  ≡ₚ Course.students (Course.enroll_students course_A batch_C).1 /\
  StronglySorted Z.lt
    (map Student.id
       (Course.get_students (Course.enroll_students course_A batch_C).1)).
Proof.
  apply (get_students_sorted (Course.enroll_students course_A batch_C).1).
  apply (bool_decide_unpack _). vm_compute. exact I.
Defined.

(** [test_course_students_sorted]: students enrolled with the ids 3, 1, 2
    come back with the ids 1, 2, 3. *)
Example test_course_students_sorted :
  map Student.id
    (Course.get_students
       (Course.enroll_students (Course.init "CSC148")
          [Student.init 3 "C"; Student.init 1 "A"; Student.init 2 "B"]).1)
  = [1; 2; 3].
Proof. by vm_compute. Qed.

(** ** [Course.all_answered] *)

Lemma answered_loop_true (s : Student.t) (qs : list Question) :
  CourseSurvey.answered_loop s qs = true <->
  forall q, q ∈ qs ->
    exists a, Student.get_answer s q = Some a /\ validate_answer q a = true.
Proof.
  induction qs as [|q rest IH]; simpl.
  - split; [|done]. by intros _ q ?%elem_of_nil.
  - destruct (Student.has_answer s q) eqn:Eh; simpl.
    + destruct (Student.get_answer s q) as [a|] eqn:Eg.
      * destruct (validate_answer q a) eqn:Ev; simpl.
        -- rewrite IH. split.
           ++ intros H q' [->|Hq']%elem_of_cons; [by exists a|by apply H].
           ++ intros H q' Hq'. apply H. by right.
        -- split; [done|]. intros H.
           destruct (H q ltac:(left)) as (a' & Ha' & Hv). congruence.
      * split; [done|]. intros H.
        destruct (H q ltac:(left)) as (a' & Ha' & _). congruence.
    + split; [done|]. intros H.
      destruct (H q ltac:(left)) as (a' & Ha' & _).
      apply bool_decide_eq_false in Eh. exfalso. apply Eh, elem_of_dom.
      by exists a'.
Qed.

Lemma students_loop_true (sts : list Student.t) (qs : list Question) :
  CourseSurvey.students_loop sts qs = true <->
  forall s q, s ∈ sts -> q ∈ qs ->
    exists a, Student.get_answer s q = Some a /\ validate_answer q a = true.
Proof.
  induction sts as [|s rest IH]; simpl.
  - split; [|done]. by intros _ s q ?%elem_of_nil.
  - destruct (CourseSurvey.answered_loop s qs) eqn:E.
    + rewrite IH. pose proof (proj1 (answered_loop_true s qs) E) as E'. split.
      * intros H s' q [->|Hs']%elem_of_cons Hq; [by apply E'|by apply H].
      * intros H s' q Hs'. apply H. by right.
    + split; [done|]. intros H. apply not_true_iff_false in E.
      exfalso. apply E, answered_loop_true. intros q Hq. apply H; [left|done].
Qed.

(** [all_answered] returns [True] exactly when every student of the
    course has a recorded answer to every question of the survey and that
    answer is valid for the question. *)
Theorem all_answered_iff (self : Course.t) (survey : Survey.t) :
  CourseSurvey.all_answered self survey = true <->
  forall s q, s ∈ Course.students self -> q ∈ Survey.get_questions survey ->
    exists a, Student.get_answer s q = Some a /\ validate_answer q a = true.
Proof. apply students_loop_true. Qed.

(** [test_course_all_answered_false]: one student without an answer makes
    [all_answered] false. *)
Example test_course_all_answered_false :
  let q := YesNo 1 "Q" in
  let s1 := Student.set_answer (Student.init 1 "A") q ansT in
  let c := (Course.enroll_students (Course.init "CSC148")
              [s1; Student.init 2 "B"]).1 in
  CourseSurvey.all_answered c (Survey.init [q]) = false.
Proof. by vm_compute. Qed.



(** ** Building and changing a survey *)

Lemma init_loop_snoc (qs : list Question) (q : Question) (sv : Survey.t) :
  Survey.init_loop (qs ++ [q]) sv
  = Survey.mk
      (<[question_id q := q]> (Survey._questions (Survey.init_loop qs sv)))
      (<[question_id q := Homogeneous]>
         (Survey._criteria (Survey.init_loop qs sv)))
      (<[question_id q := 1]> (Survey._weights (Survey.init_loop qs sv))).
Proof. revert sv. induction qs as [|q0 qs IH]; intros sv; simpl; [done|apply IH]. Qed.

Lemma init_snoc (qs : list Question) (q : Question) :
  Survey.init (qs ++ [q])
  = Survey.mk
      (<[question_id q := q]> (Survey._questions (Survey.init qs)))
      (<[question_id q := Homogeneous]> (Survey._criteria (Survey.init qs)))
      (<[question_id q := 1]> (Survey._weights (Survey.init qs))).
Proof. apply init_loop_snoc. Qed.

Lemma init_questions_last (qs : list Question) (k : Z) :
  Survey._questions (Survey.init qs) !! k
  = last (List.filter (fun q => question_id q =? k) qs).
Proof.
  induction qs as [|q qs IH] using rev_ind; [apply lookup_empty|].
  rewrite init_snoc, List.filter_app. simpl.
  destruct (Z.eqb_spec (question_id q) k) as [<-|Hk].
  - by rewrite lookup_insert_eq, last_snoc.
  - by rewrite lookup_insert_ne, app_nil_r.
Qed.

Lemma init_criteria_weights (qs : list Question) (k : Z) :
  Survey._criteria (Survey.init qs) !! k
  = (if bool_decide (k ∈ dom (Survey._questions (Survey.init qs)))
     then Some Homogeneous else None) /\
  Survey._weights (Survey.init qs) !! k
  = (if bool_decide (k ∈ dom (Survey._questions (Survey.init qs)))
     then Some 1 else None).
Proof.
  induction qs as [|q qs [IHc IHw]] using rev_ind.
  - unfold Survey.init. simpl. rewrite !lookup_empty.
    by rewrite bool_decide_eq_false_2 by set_solver.
  - rewrite init_snoc. simpl. rewrite dom_insert_L.
    destruct (decide (question_id q = k)) as [<-|Hk].
    + rewrite !lookup_insert_eq. by rewrite bool_decide_eq_true_2 by set_solver.
    + rewrite !lookup_insert_ne, IHc, IHw by done.
      assert (Hiff : k ∈ dom (Survey._questions (Survey.init qs)) <->
                     k ∈ ({[question_id q]} : gset Z)
                         ∪ dom (Survey._questions (Survey.init qs))).
      { rewrite elem_of_union, elem_of_singleton. split; [by right|].
        by intros [->|?]. }
      by rewrite (bool_decide_ext _ _ Hiff).
Qed.

Lemma init_dom (qs : list Question) :
  dom (Survey._questions (Survey.init qs)) = list_to_set (map question_id qs).
Proof.
  induction qs as [|q qs IH] using rev_ind; [by unfold Survey.init; simpl; rewrite dom_empty_L|].
  rewrite init_snoc. simpl. rewrite dom_insert_L, IH, map_app, list_to_set_app_L.
  simpl. rewrite (right_id_L ∅ (∪)). apply (comm_L (∪)).
Qed.

(** [Survey(questions)]: the survey contains a question exactly when one
    of [questions] has its id; under an id it holds the last of
    [questions] with that id; its length is the number of distinct ids;
    and each question it contains has the homogeneous criterion and the
    weight 1, the lookups for any other question failing with [KeyError]. *)
Theorem survey_init_defaults (questions : list Question) (q : Question) :
  (Survey.contains (Survey.init questions) q = true <->
   exists q', q' ∈ questions /\ question_id q' = question_id q) /\
  (forall k, Survey._questions (Survey.init questions) !! k
             = last (List.filter (fun q' => question_id q' =? k) questions)) /\
  Survey.len (Survey.init questions)
  = size (list_to_set (map question_id questions) : gset Z) /\
  Survey._get_criterion (Survey.init questions) q
  = (if Survey.contains (Survey.init questions) q then Ok Homogeneous
     else Raise KeyError) /\
  Survey._get_weight (Survey.init questions) q
  = (if Survey.contains (Survey.init questions) q then Ok 1
     else Raise KeyError).
Proof.
  split; [|split; [|split; [|split]]].
  - unfold Survey.contains. rewrite bool_decide_eq_true, init_dom,
      elem_of_list_to_set, list_elem_of_fmap.
    split; intros (q' & H1 & H2); exists q'; by split.
  - apply init_questions_last.
  - unfold Survey.len. by rewrite <- size_dom, init_dom.
  - unfold Survey._get_criterion, Survey.py_getitem, Survey.contains.
    rewrite (proj1 (init_criteria_weights questions (question_id q))).
    by case_bool_decide.
  - unfold Survey._get_weight, Survey.py_getitem, Survey.contains.
    rewrite (proj2 (init_criteria_weights questions (question_id q))).
    by case_bool_decide.
Qed.

Lemma init_lookup_elem (qs : list Question) (k : Z) (q : Question) :
  Survey._questions (Survey.init qs) !! k = Some q -> q ∈ qs.
Proof.
  induction qs as [|q0 qs IH] using rev_ind;
    [unfold Survey.init; simpl; by rewrite lookup_empty|].
  rewrite init_snoc. simpl. rewrite elem_of_app, list_elem_of_singleton.
  destruct (decide (question_id q0 = k)) as [<-|Hk].
  - rewrite lookup_insert_eq. intros [= ->]. by right.
  - rewrite lookup_insert_ne by done. intros H. left. by apply IH.
Qed.

Lemma init_lookup_nodup (qs : list Question) (q : Question) :
  NoDup (map question_id qs) -> q ∈ qs ->
  Survey._questions (Survey.init qs) !! question_id q = Some q.
Proof.
  induction qs as [|q0 qs IH] using rev_ind; [by intros _ ?%elem_of_nil|].
  rewrite map_app, init_snoc. simpl.
  intros [Hnd [Hdisj _]]%NoDup_app [Hq|Hq%list_elem_of_singleton]%elem_of_app;
    [|subst q; apply lookup_insert_eq].
  - rewrite lookup_insert_ne; [by apply IH|].
    intros Heq. apply (Hdisj (question_id q)).
    + apply list_elem_of_fmap. by exists q.
    + rewrite Heq. apply list_elem_of_here.
Qed.

(** For questions with distinct ids, [get_questions] of the new survey
    returns exactly these questions, by strictly increasing id, whatever
    their order in the list given to the constructor. *)
Theorem get_questions_init (questions : list Question) :
  NoDup (map question_id questions) ->
  Survey.get_questions (Survey.init questions) ≡ₚ questions /\
  StronglySorted Z.lt
    (map question_id (Survey.get_questions (Survey.init questions))).
Proof.
  intros Hnd.
  assert (Hsorted : StronglySorted Z.lt
            (map question_id (Survey.get_questions (Survey.init questions))))
    by (rewrite get_questions_ids by apply init_inv; apply sorted_ids_increasing).
  split; [|done].
  apply NoDup_Permutation.
  - apply (NoDup_fmap_1 question_id).
    rewrite get_questions_ids by apply init_inv. apply sorted_ids_NoDup.
  - by apply (NoDup_fmap_1 question_id).
  - intros q. rewrite get_questions_elem. split.
    + intros (k & Hk). by apply init_lookup_elem in Hk.
    + intros Hq. exists (question_id q). by apply init_lookup_nodup.
Qed.

Lemma get_questions_init_witness :
  Survey.get_questions (Survey.init [q_agree; q_rate]) ≡ₚ [q_agree; q_rate] /\
  StronglySorted Z.lt
    (map question_id (Survey.get_questions (Survey.init [q_agree; q_rate]))).
Proof.
  apply (get_questions_init [q_agree; q_rate]).
  apply (bool_decide_unpack _). vm_compute. exact I.
Defined.

(** [set_weight] on a survey that keeps its invariants: it answers [True]
    exactly when the survey contains the question; then the weight of the
    questions with that id is the new weight and every other weight is as
    before; otherwise the survey is unchanged.  Questions and criteria are
    never touched. *)
Theorem set_weight_spec (sv : Survey.t) (weight : Z) (q : Question) :
  survey_inv sv ->
  (Survey.set_weight sv weight q).2 = Survey.contains sv q /\
  Survey._questions (Survey.set_weight sv weight q).1 = Survey._questions sv /\
  Survey._criteria (Survey.set_weight sv weight q).1 = Survey._criteria sv /\
  (if (Survey.set_weight sv weight q).2
   then forall q', Survey._get_weight (Survey.set_weight sv weight q).1 q'
                   = (if decide (question_id q' = question_id q) then Ok weight
                      else Survey._get_weight sv q')
   else (Survey.set_weight sv weight q).1 = sv /\
        Survey._get_weight sv q = Raise KeyError).
Proof.
  intros (_ & _ & Hw). unfold Survey.set_weight, Survey.contains.
  rewrite <- Hw. case_bool_decide as Hin; simpl.
  - repeat (split; [done|]). intros q'.
    unfold Survey._get_weight, Survey.py_getitem. simpl. case_decide as E.
    + by rewrite E, lookup_insert_eq.
    + by rewrite lookup_insert_ne.
  - repeat (split; [done|]).
    unfold Survey._get_weight, Survey.py_getitem.
    apply not_elem_of_dom in Hin. by rewrite Hin.
Qed.

Lemma set_weight_spec_witness :
  (Survey.set_weight (Survey.init [q_agree; q_rate]) 3 q_agree).2
  = Survey.contains (Survey.init [q_agree; q_rate]) q_agree /\
  Survey._questions (Survey.set_weight (Survey.init [q_agree; q_rate]) 3 q_agree).1
  = Survey._questions (Survey.init [q_agree; q_rate]) /\
  Survey._criteria (Survey.set_weight (Survey.init [q_agree; q_rate]) 3 q_agree).1
  = Survey._criteria (Survey.init [q_agree; q_rate]) /\
  (if (Survey.set_weight (Survey.init [q_agree; q_rate]) 3 q_agree).2
   then forall q',
          Survey._get_weight
            (Survey.set_weight (Survey.init [q_agree; q_rate]) 3 q_agree).1 q'
          = (if decide (question_id q' = question_id q_agree) then Ok 3
             else Survey._get_weight (Survey.init [q_agree; q_rate]) q')
   else (Survey.set_weight (Survey.init [q_agree; q_rate]) 3 q_agree).1
        = Survey.init [q_agree; q_rate] /\
        Survey._get_weight (Survey.init [q_agree; q_rate]) q_agree
        = Raise KeyError).
Proof.
  apply (set_weight_spec (Survey.init [q_agree; q_rate]) 3 q_agree).
  apply init_inv.
Defined.

(** [set_criterion] on a survey that keeps its invariants: it answers
    [True] exactly when the survey contains the question; then the
    criterion of the questions with that id is the new criterion and every
    other criterion is as before; otherwise the survey is unchanged.
    Questions and weights are never touched. *)
Theorem set_criterion_spec (sv : Survey.t) (criterion : Criterion)
  (q : Question) :
  survey_inv sv ->
  (Survey.set_criterion sv criterion q).2 = Survey.contains sv q /\
  Survey._questions (Survey.set_criterion sv criterion q).1
  = Survey._questions sv /\
  Survey._weights (Survey.set_criterion sv criterion q).1 = Survey._weights sv /\
  (if (Survey.set_criterion sv criterion q).2
   then forall q', Survey._get_criterion (Survey.set_criterion sv criterion q).1 q'
                   = (if decide (question_id q' = question_id q)
                      then Ok criterion
                      else Survey._get_criterion sv q')
   else (Survey.set_criterion sv criterion q).1 = sv /\
        Survey._get_criterion sv q = Raise KeyError).
Proof.
  intros (_ & Hc & _). unfold Survey.set_criterion, Survey.contains.
  rewrite <- Hc. case_bool_decide as Hin; simpl.
  - repeat (split; [done|]). intros q'.
    unfold Survey._get_criterion, Survey.py_getitem. simpl. case_decide as E.
    + by rewrite E, lookup_insert_eq.
    + by rewrite lookup_insert_ne.
  - repeat (split; [done|]).
    unfold Survey._get_criterion, Survey.py_getitem.
    apply not_elem_of_dom in Hin. by rewrite Hin.
Qed.

Lemma set_criterion_spec_witness :
  (Survey.set_criterion (Survey.init [q_tick; q_yes]) LonelyMember q_tick).2
  = Survey.contains (Survey.init [q_tick; q_yes]) q_tick /\
  Survey._questions
    (Survey.set_criterion (Survey.init [q_tick; q_yes]) LonelyMember q_tick).1
  = Survey._questions (Survey.init [q_tick; q_yes]) /\
  Survey._weights
    (Survey.set_criterion (Survey.init [q_tick; q_yes]) LonelyMember q_tick).1
  = Survey._weights (Survey.init [q_tick; q_yes]) /\
  (if (Survey.set_criterion (Survey.init [q_tick; q_yes]) LonelyMember q_tick).2
   then forall q',
          Survey._get_criterion
            (Survey.set_criterion (Survey.init [q_tick; q_yes])
               LonelyMember q_tick).1 q'
          = (if decide (question_id q' = question_id q_tick)
             then Ok LonelyMember
             else Survey._get_criterion (Survey.init [q_tick; q_yes]) q')
   else (Survey.set_criterion (Survey.init [q_tick; q_yes])
           LonelyMember q_tick).1
        = Survey.init [q_tick; q_yes] /\
        Survey._get_criterion (Survey.init [q_tick; q_yes]) q_tick
        = Raise KeyError).
Proof.
  apply (set_criterion_spec (Survey.init [q_tick; q_yes]) LonelyMember q_tick).
  apply init_inv.
Defined.

(** The three representation invariants of [Survey] hold for every survey
    made by the constructor and changed by [set_weight], with a weight
    greater than 0, and by [set_criterion]: the key of a question is its
    id, the three dictionaries have the same keys, and each weight is
    greater than 0. *)
Theorem reachable_invariants (sv : Survey.t) :
  reachable sv -> survey_inv sv /\ weights_positive sv.
Proof.
  induction 1 as [qs|sv w q _ [IHi IHp] Hw|sv c q _ [IHi IHp]].
  - split; [apply init_inv|]. intros k w Hk.
    rewrite (proj2 (init_criteria_weights qs k)) in Hk.
    case_bool_decide; [|done]. injection Hk as <-. lia.
  - split; [by apply set_weight_inv|]. intros k w'.
    unfold Survey.set_weight. case_bool_decide; simpl; [|apply IHp].
    destruct (decide (question_id q = k)) as [<-|Hk].
    + rewrite lookup_insert_eq. by intros [= <-].
    + rewrite lookup_insert_ne by done. apply IHp.
  - split; [by apply set_criterion_inv|]. intros k w.
    unfold Survey.set_criterion. case_bool_decide; simpl; apply IHp.
Qed.

Lemma reachable_invariants_witness :
  survey_inv survey_two /\ weights_positive survey_two.
Proof.
  apply (reachable_invariants survey_two).
  apply reach_set_weight; [apply reach_init|lia].
Defined.

(** ** More on similarity *)

Lemma ratio_le_iff (n m d : Z) :
  0 < d -> (inject_Z n / inject_Z d <= inject_Z m / inject_Z d)%Q <-> n <= m.
Proof.
  intros Hd. unfold Qdiv.
  assert (Hi : (0 < / inject_Z d)%Q).
  { apply Qinv_lt_0_compat. change 0%Q with (inject_Z 0). by rewrite <- Zlt_Qlt. }
  rewrite (Qmult_le_r _ _ _ Hi). by rewrite <- Zle_Qle.
Qed.

Lemma ratio_eq_iff (n m d : Z) :
  0 < d -> (inject_Z n / inject_Z d == inject_Z m / inject_Z d)%Q <-> n = m.
Proof.
  intros Hd. split; [|by intros ->].
  intros H. apply Z.le_antisymm; apply (ratio_le_iff _ _ d Hd); rewrite H;
    apply Qle_refl.
Qed.

Lemma ratio_one_iff (n d : Z) :
  0 < d -> (inject_Z n / inject_Z d == 1)%Q <-> n = d.
Proof.
  intros Hd. rewrite <- (ratio_eq_iff n d d Hd).
  by rewrite (ratio_self d) by lia.
Qed.

Lemma ratio_zero_iff (n d : Z) :
  0 < d -> (inject_Z n / inject_Z d == 0)%Q <-> n = 0.
Proof.
  intros Hd. rewrite <- (ratio_eq_iff n 0 d Hd).
  assert (inject_Z 0 / inject_Z d == 0)%Q as -> by (unfold Qdiv; apply Qmult_0_l).
  reflexivity.
Qed.

(** Numeric similarity does not grow with the distance: of two pairs of
    valid answers, the pair that is no further apart is at least as
    similar. *)
Theorem numeric_similarity_monotone (i : Z) (txt : string)
  (lo hi x y x' y' : Z) :
  lo < hi -> lo <= x <= hi -> lo <= y <= hi -> lo <= x' <= hi ->
  lo <= y' <= hi ->
  Z.abs (x - y) <= Z.abs (x' - y') ->
  exists r r',
    get_similarity (Numeric i txt lo hi) (int_answer x) (int_answer y) = Ok r /\
    get_similarity (Numeric i txt lo hi) (int_answer x') (int_answer y') = Ok r' /\
    (r' <= r)%Q.
Proof.
  intros Hlt Hx Hy Hx' Hy' Hd. simpl.
  rewrite (numeric_similarity_int lo hi x y) by done.
  rewrite (numeric_similarity_int lo hi x' y') by done.
  eexists _, _. split; [done|]. split; [done|].
  apply (ratio_le_iff (Z.abs (x - y)) (Z.abs (x' - y')) (hi - lo)
           ltac:(lia)) in Hd.
  lra.
Qed.

Lemma numeric_similarity_monotone_witness :
  exists r r',
    get_similarity (Numeric 1 "Rate" 1 5) (int_answer 2) (int_answer 3) = Ok r /\
    get_similarity (Numeric 1 "Rate" 1 5) (int_answer 1) (int_answer 4) = Ok r' /\
    (r' <= r)%Q.
Proof.
  apply (numeric_similarity_monotone 1 "Rate" 1 5 2 3 1 4); lia.
Defined.

Lemma size_list_to_set_le (l : list key) :
  (size (list_to_set l : gset key) <= length l)%nat.
Proof.
  induction l as [|x l IH];
    [by rewrite list_to_set_nil, size_empty|].
  rewrite list_to_set_cons. simpl length.
  pose proof (size_union_alt ({[x]} : gset key) (list_to_set l)) as Hu.
  rewrite size_singleton in Hu.
  pose proof (subseteq_size (list_to_set l ∖ {[x]}) (list_to_set l : gset key)
                ltac:(apply subseteq_difference_l; done)) as Hd.
  lia.
Qed.

Lemma size_list_to_set_NoDup (l : list key) :
  size (list_to_set l : gset key) = length l <-> NoDup l.
Proof.
  split; [|apply size_list_to_set].
  induction l as [|x l IH]; [constructor|].
  rewrite list_to_set_cons. simpl length. intros Hs.
  pose proof (size_list_to_set_le l) as Hle.
  destruct (decide (x ∈ l)) as [Hin|Hnin].
  - exfalso.
    assert (({[x]} : gset key) ∪ list_to_set l = list_to_set l) as E.
    { apply subseteq_union_1_L, singleton_subseteq_l.
      by apply elem_of_list_to_set. }
    rewrite E in Hs. lia.
  - constructor; [done|]. apply IH.
    rewrite size_union, size_singleton in Hs; [lia|].
    apply disjoint_singleton_l. by rewrite elem_of_list_to_set.
Qed.

(** [CheckboxQuestion.validate_answer] accepts exactly the contents that
    are a non-empty list without two equal items, every item being a
    string that is one of the options. *)
Theorem checkbox_validate_iff (i : Z) (txt : string) (opts : list value)
  (answer : Answer) :
  validate_answer (Checkbox i txt opts) answer = true <->
  exists l, content answer = VList l /\ l <> [] /\
            NoDup (map atom_key l) /\
            forall item, item ∈ l ->
              (exists s, item = AStr s) /\ py_in (VAtom item) opts = true.
Proof.
  simpl. unfold CheckboxQuestion.validate_answer.
  destruct (content answer) as [a|l].
  { split; [done|]. by intros (l & [=] & _). }
  destruct (Nat.eqb_spec (length l) 0) as [E0|E0].
  { split; [done|]. intros (l' & [= <-] & Hne & _). by destruct l. }
  destruct (Nat.eqb_spec (length l) (size (py_set l))) as [E|E]; cbn [negb].
  - rewrite forallb_forall. split.
    + intros H. exists l. split; [done|]. split; [by intros ->|].
      split.
      { apply size_list_to_set_NoDup. unfold py_set in E.
        by rewrite length_map. }
      intros item Hitem%list_elem_of_In. specialize (H item Hitem).
      apply andb_true_iff in H as [Hs Hin]. split; [|done].
      destruct item; try done. by eexists.
    + intros (l' & [= <-] & _ & _ & H) item Hitem%list_elem_of_In.
      destruct (H item Hitem) as [[s ->] Hin]. by rewrite Hin.
  - split; [done|]. intros (l' & [= <-] & _ & Hnd & _).
    apply size_list_to_set_NoDup in Hnd. unfold py_set in E.
    rewrite length_map in Hnd. congruence.
Qed.

(** Checkbox similarity of two valid answers is 1 exactly when the two
    lists have the same items, in whatever order, and 0 exactly when they
    have no item in common. *)
Theorem checkbox_similarity_extremes (i : Z) (txt : string) (opts : list value)
  (a1 a2 : Answer) :
  validate_answer (Checkbox i txt opts) a1 = true ->
  validate_answer (Checkbox i txt opts) a2 = true ->
  exists l1 l2 r,
    content a1 = VList l1 /\ content a2 = VList l2 /\
    get_similarity (Checkbox i txt opts) a1 a2 = Ok r /\
    ((r == 1)%Q <-> py_set l1 = py_set l2) /\
    ((r == 0)%Q <-> py_set l1 ## py_set l2).
Proof.
  intros V1 V2. simpl in *.
  apply checkbox_valid_inv in V1 as (l1 & H1 & N1).
  apply checkbox_valid_inv in V2 as (l2 & H2 & N2).
  exists l1, l2. eexists. split; [done|]. split; [done|].
  split; [by apply (checkbox_similarity_lists l1 l2)|].
  pose proof (py_set_nonempty l1 N1) as Hs.
  pose proof (subseteq_size (py_set l1) (py_set l1 ∪ py_set l2)
                (union_subseteq_l _ _)) as Hu.
  unfold float_of_len. split.
  - rewrite ratio_one_iff by lia. rewrite Nat2Z.inj_iff. split.
    + intros E.
      assert (Heq : py_set l1 ∩ py_set l2 = py_set l1 ∪ py_set l2).
      { apply set_subseteq_size_eq; [|lia].
        etrans; [apply intersection_subseteq_l|apply union_subseteq_l]. }
      apply set_eq. intros k. split; intros Hk.
      * assert (k ∈ py_set l1 ∩ py_set l2) as Hi
          by (rewrite Heq; apply elem_of_union; by left).
        by apply elem_of_intersection in Hi as [_ ?].
      * assert (k ∈ py_set l1 ∩ py_set l2) as Hi
          by (rewrite Heq; apply elem_of_union; by right).
        by apply elem_of_intersection in Hi as [? _].
    + intros ->. by rewrite (idemp_L (∩)), (idemp_L (∪)).
  - rewrite ratio_zero_iff by lia.
    rewrite <- Nat2Z.inj_0, Nat2Z.inj_iff, size_empty_iff.
    by rewrite disjoint_intersection.
Qed.

(** The same items in another order: not equal as lists, similarity 1. *)
Example checkbox_similarity_reordered :
  py_eq (content ans_abc) (content ans_bca) = false /\
  exists r, get_similarity cb ans_abc ans_bca = Ok r /\ (r == 1)%Q.
Proof.
  split; [by vm_compute|]. eexists. split; [vm_compute; reflexivity|reflexivity].
Qed.

Lemma checkbox_similarity_extremes_witness :
  exists l1 l2 r,
    content ans_abc = VList l1 /\ content ans_cbd = VList l2 /\
    get_similarity
      (Checkbox 3 "Pick" (map (fun s => VAtom (AStr s)) ["a"; "b"; "c"; "d"]%string))
      ans_abc ans_cbd = Ok r /\
    ((r == 1)%Q <-> py_set l1 = py_set l2) /\
    ((r == 0)%Q <-> py_set l1 ## py_set l2).
Proof.
  apply (checkbox_similarity_extremes 3 "Pick"
           (map (fun s => VAtom (AStr s)) ["a"; "b"; "c"; "d"]%string)
           ans_abc ans_cbd); by vm_compute.
Defined.

(** ** The range of the scores *)

Lemma py_div_Ok_inv (x y r : Q) :
  py_div x y = Ok r -> ~ (y == 0)%Q /\ r = (x / y)%Q.
Proof.
  unfold py_div. destruct (Qeq_bool y 0) eqn:E; [done|].
  intros [= <-]. split; [|done]. by apply Qeq_bool_neq.
Qed.

(** A similarity that is returned for valid answers lies in [0,1], also
    without the precondition on the numeric range. *)
Lemma get_similarity_Ok_range (q : Question) (a1 a2 : Answer) (s : Q) :
  validate_answer q a1 = true -> validate_answer q a2 = true ->
  get_similarity q a1 a2 = Ok s -> (0 <= s)%Q /\ (s <= 1)%Q.
Proof.
  intros V1 V2 Hs.
  assert (Hpre : question_pre q).
  { destruct q as [i t o|i t lo hi|i t|i t o]; simpl; try done.
    simpl in *.
    apply numeric_valid_inv in V1 as (x & Hx & Rx).
    apply numeric_valid_inv in V2 as (y & Hy & Ry).
    destruct (decide (lo < hi)) as [|Hn]; [done|exfalso].
    unfold NumericQuestion.get_similarity in Hs. rewrite Hx, Hy in Hs.
    simpl in Hs. rewrite py_div_zero in Hs; [done|].
    assert (hi - lo = 0) as -> by lia. reflexivity. }
  destruct (get_similarity_valid q a1 a2 Hpre V1 V2) as (r & Hr & _ & B0 & B1).
  by assert (r = s) as <- by congruence.
Qed.

Lemma inner_loop_Ok_range (q : Question) (ai : Answer) (rest : list Answer)
  (st st' : Q * nat) :
  validate_answer q ai = true ->
  Forall (fun a => validate_answer q a = true) rest ->
  HomogeneousCriterion.inner_loop q ai rest st = Ok st' ->
  st'.2 = (st.2 + length rest)%nat /\
  (st.1 <= st'.1)%Q /\ (st'.1 <= st.1 + float_of_len (length rest))%Q.
Proof.
  intros Hi F. revert st.
  induction F as [|aj rest Hj F IH]; intros [t c]; simpl.
  - intros [= <-]. simpl. split; [lia|].
    change (float_of_len 0) with 0%Q. split; lra.
  - destruct (get_similarity q ai aj) as [s|e] eqn:Es;
      rewrite ?bind_Ok, ?bind_Raise; [|done].
    destruct (get_similarity_Ok_range q ai aj s Hi Hj Es) as [B0 B1].
    intros H. destruct (IH _ H) as (Hc & L0 & L1). simpl in *.
    split; [lia|]. rewrite float_of_len_S. split; lra.
Qed.

Lemma outer_loop_Ok_range (q : Question) (answers : list Answer)
  (st st' : Q * nat) :
  Forall (fun a => validate_answer q a = true) answers ->
  HomogeneousCriterion.outer_loop q answers st = Ok st' ->
  (st.2 <= st'.2)%nat /\
  (st.1 <= st'.1)%Q /\ (st'.1 - st.1 <= float_of_len (st'.2 - st.2))%Q.
Proof.
  intros F. revert st.
  induction F as [|ai rest Hi F IH]; intros [t c]; simpl.
  - intros [= <-]. simpl. split; [lia|]. rewrite Nat.sub_diag.
    change (float_of_len 0) with 0%Q. split; lra.
  - destruct (HomogeneousCriterion.inner_loop q ai rest (t, c)) as [[t1 c1]|e]
      eqn:Ei; rewrite ?bind_Ok, ?bind_Raise; [|done].
    destruct (inner_loop_Ok_range q ai rest (t, c) (t1, c1) Hi F Ei)
      as (Hc & L0 & L1).
    intros H. destruct (IH _ H) as (Hc' & M0 & M1). simpl in *.
    split; [lia|]. split; [lra|].
    replace (st'.2 - c)%nat with (st'.2 - c1 + length rest)%nat by lia.
    rewrite float_of_len_add. lra.
Qed.

Lemma homogeneous_Ok_range (q : Question) (answers : list Answer) (h : Q) :
  HomogeneousCriterion.score_answers q answers = Ok h ->
  (0 <= h)%Q /\ (h <= 1)%Q.
Proof.
  unfold HomogeneousCriterion.score_answers.
  destruct (check_answers_cases q answers) as [[-> F]|[-> _]];
    rewrite ?bind_Ok, ?bind_Raise; [|done].
  destruct (length answers =? 1)%nat; [intros [= <-]; split; discriminate|].
  destruct (HomogeneousCriterion.outer_loop q answers (0%Q, 0%nat))
    as [[total count]|e] eqn:Eo; rewrite ?bind_Ok, ?bind_Raise; [|done].
  destruct (outer_loop_Ok_range q answers _ _ F Eo) as (_ & L0 & L1).
  simpl in *. intros [Hn ->]%py_div_Ok_inv.
  rewrite Nat.sub_0_r in L1.
  assert (count <> 0%nat) by (intros ->; by apply Hn).
  pose proof (float_of_len_pos count ltac:(done)).
  split.
  - apply Qle_shift_div_l; [done|]. lra.
  - apply Qle_shift_div_r; [done|]. lra.
Qed.

Lemma score_answers_Ok_range (c : Criterion) (q : Question)
  (answers : list Answer) (r : Q) :
  score_answers c q answers = Ok r -> (0 <= r)%Q /\ (r <= 1)%Q.
Proof.
  destruct c; simpl.
  - apply homogeneous_Ok_range.
  - unfold HeterogeneousCriterion.score_answers.
    destruct (HomogeneousCriterion.score_answers q answers) as [h|e] eqn:Eh;
      rewrite ?bind_Ok, ?bind_Raise; [|done].
    destruct (homogeneous_Ok_range q answers h Eh) as [B0 B1].
    intros [= <-]. split; lra.
  - unfold LonelyMemberCriterion.score_answers.
    destruct (check_answers q answers);
      rewrite ?bind_Ok, ?bind_Raise; [|done].
    destruct (length answers =? 1)%nat; [intros [= <-]; split; discriminate|].
    destruct (LonelyMemberCriterion.count_loop answers ∅) as [counts|e];
      rewrite ?bind_Ok, ?bind_Raise; [|done].
    destruct (LonelyMemberCriterion.has_unique counts); intros [= <-];
      split; discriminate.
Qed.

(** Whatever the criterion, the question and the answers, a score that
    [score_answers] returns lies between 0 and 1. *)
Theorem score_answers_range (c : Criterion) (q : Question)
  (answers : list Answer) (r : Q) :
  score_answers c q answers = Ok r -> (0 <= r)%Q /\ (r <= 1)%Q.
Proof. apply score_answers_Ok_range. Qed.

Lemma score_answers_range_witness :
  exists r, score_answers Heterogeneous yn [ansT; ansT; ansF] = Ok r /\
            (0 <= r)%Q /\ (r <= 1)%Q.
Proof.
  eexists. split; [vm_compute; reflexivity|].
  apply (score_answers_range Heterogeneous yn [ansT; ansT; ansF]).
  vm_compute. reflexivity.
Defined.

(** On exactly one valid answer the homogeneous criterion returns 1, the
    heterogeneous criterion 0 and the lonely-member criterion 0. *)
Theorem score_answers_single (q : Question) (a : Answer) :
  validate_answer q a = true ->
  score_answers Homogeneous q [a] = Ok 1%Q /\
  (exists r, score_answers Heterogeneous q [a] = Ok r /\ (r == 0)%Q) /\
  score_answers LonelyMember q [a] = Ok 0%Q.
Proof.
  intros V. simpl.
  unfold HeterogeneousCriterion.score_answers,
    HomogeneousCriterion.score_answers, LonelyMemberCriterion.score_answers.
  simpl. unfold is_valid. rewrite V. simpl.
  split; [done|]. split; [|done]. by eexists.
Qed.

Lemma score_answers_single_witness :
  score_answers Homogeneous cb_ab [ans_a] = Ok 1%Q /\
  (exists r, score_answers Heterogeneous cb_ab [ans_a] = Ok r /\ (r == 0)%Q) /\
  score_answers LonelyMember cb_ab [ans_a] = Ok 0%Q.
Proof. apply (score_answers_single cb_ab ans_a). by vm_compute. Defined.

Lemma score_loop_range (sv : Survey.t) (sts : list Student.t)
  (qs : list Question) (total r : Q) (W : Z) :
  0 <= W ->
  (forall k w, Survey._weights sv !! k = Some w -> 0 <= w <= W) ->
  (length qs <= Survey.len sv)%nat ->
  (0 <= total)%Q ->
  (total <= inject_Z W * float_of_len (Survey.len sv - length qs))%Q ->
  Survey.score_loop sv sts qs total = Ok r ->
  (0 <= r)%Q /\ (r <= inject_Z W)%Q.
Proof.
  intros HW Hw. revert total.
  assert (HWq : (0 <= inject_Z W)%Q)
    by (change 0%Q with (inject_Z 0); by rewrite <- Zle_Qle).
  induction qs as [|q rest IH]; intros total Hlen H0 H1; simpl in *.
  - change (size (Survey._questions sv)) with (Survey.len sv).
    intros [Hn ->]%py_div_Ok_inv. rewrite Nat.sub_0_r in H1.
    assert (Survey.len sv <> 0%nat) by (intros E; apply Hn; by rewrite E).
    pose proof (float_of_len_pos (Survey.len sv) ltac:(done)).
    split.
    + apply Qle_shift_div_l; [done|]. lra.
    + apply Qle_shift_div_r; [done|]. lra.
  - destruct (Survey._get_ans sts q) as [answers|];
      [|intros [= <-]; split; [apply Qle_refl|done]].
    unfold Survey._get_criterion, Survey._get_weight, Survey.py_getitem.
    destruct (Survey._criteria sv !! question_id q) as [c|];
      rewrite ?bind_Ok, ?bind_Raise; [|done].
    destruct (score_answers c q answers) as [s|e] eqn:Es;
      rewrite ?bind_Ok, ?bind_Raise; [|done].
    destruct (Survey._weights sv !! question_id q) as [w|] eqn:Ew;
      rewrite ?bind_Ok, ?bind_Raise; [|done].
    destruct (score_answers_Ok_range c q answers s Es) as [S0 S1].
    destruct (Hw _ _ Ew) as [W0 W1].
    assert (Q0 : (0 <= float_of_int w)%Q)
      by (unfold float_of_int; change 0%Q with (inject_Z 0); by rewrite <- Zle_Qle).
    assert (Q1 : (float_of_int w <= inject_Z W)%Q)
      by (unfold float_of_int; by rewrite <- Zle_Qle).
    apply IH; [lia|nra|].
    replace (Survey.len sv - length rest)%nat
      with (Survey.len sv - S (length rest) + 1)%nat by lia.
    rewrite float_of_len_add. change (float_of_len 1) with 1%Q. nra.
Qed.

Lemma score_students_Ok_range (sv : Survey.t) (sts : list Student.t) (r : Q)
  (W : Z) :
  0 <= W ->
  (forall k w, Survey._weights sv !! k = Some w -> 0 <= w <= W) ->
  Survey.score_students sv sts = Ok r ->
  (0 <= r)%Q /\ (r <= inject_Z W)%Q.
Proof.
  intros HW Hw. unfold Survey.score_students.
  assert (HWq : (0 <= inject_Z W)%Q)
    by (change 0%Q with (inject_Z 0); by rewrite <- Zle_Qle).
  destruct (size (Survey._questions sv) =? 0)%nat;
    [intros [= <-]; split; [apply Qle_refl|done]|].
  destruct (Survey.score_loop sv sts (Survey.get_questions sv) 0%Q)
    as [v|e] eqn:El; simpl.
  - intros [= <-].
    apply (score_loop_range sv sts (Survey.get_questions sv) 0%Q v W HW Hw);
      [by rewrite get_questions_length|apply Qle_refl| |exact El].
    rewrite get_questions_length, Nat.sub_diag.
    change (float_of_len 0) with 0%Q. lra.
  - destruct e; try done. intros [= <-]. split; [apply Qle_refl|done].
Qed.

(** When every weight of the survey lies between 0 and [W], and the
    number of questions times [W] is a whole number that a float holds
    exactly, so that no product or sum of the loop is rounded above its
    bound, a score that [score_students] returns lies between 0 and [W];
    with the weights of a new survey, which are all 1, it lies between 0
    and 1. *)
Theorem score_students_range (sv : Survey.t) (sts : list Student.t) (r : Q)
  (W : Z) :
  0 <= W -> float_exact (Z.of_nat (Survey.len sv) * W) ->
  weights_within sv W ->
  Survey.score_students sv sts = Ok r ->
  (0 <= r)%Q /\ (r <= inject_Z W)%Q.
Proof. intros HW _. by apply score_students_Ok_range. Qed.

Lemma init_weights_one (qs : list Question) (k w : Z) :
  Survey._weights (Survey.init qs) !! k = Some w -> 0 <= w <= 1.
Proof.
  rewrite (proj2 (init_criteria_weights qs k)).
  case_bool_decide; [|done]. intros [= <-]. lia.
Qed.

Lemma score_students_range_witness :
  exists r, Survey.score_students agree_survey four_students = Ok r /\
            (0 <= r)%Q /\ (r <= inject_Z 1)%Q.
Proof.
  eexists. split; [vm_compute; reflexivity|].
  apply (score_students_range agree_survey four_students _ 1).
  - lia.
  - by vm_compute.
  - intros k w. apply init_weights_one.
  - vm_compute. reflexivity.
Defined.

(** The weights of a survey lie between 0 and [W] when those that the
    dictionary lists do. *)
Lemma weights_within_check (sv : Survey.t) (W : Z) :
  forallb (fun kw => (0 <=? kw.2) && (kw.2 <=? W))
    (map_to_list (Survey._weights sv)) = true ->
  weights_within sv W.
Proof.
  intros H k w Hk. apply elem_of_map_to_list in Hk.
  rewrite forallb_forall in H. apply list_elem_of_In in Hk.
  specialize (H _ Hk). simpl in H. lia.
Qed.

Lemma weights_within_convertible (sv : Survey.t) (W : Z) :
  W <= float_max -> weights_within sv W -> weights_convertible sv.
Proof. intros HW Hw k w Hk. specialize (Hw k w Hk). lia. Qed.

Lemma survey_two_convertible : weights_convertible survey_two.
Proof.
  apply (weights_within_convertible survey_two 3); [by vm_compute|].
  apply weights_within_check. by vm_compute.
Qed.

(** On a survey that keeps its invariants, is safe and has weights that
    [float] converts, a student without an answer, or with an invalid
    answer, to any question of the survey makes [score_students] return
    0, whatever the other answers are. *)
Theorem score_students_defensive (sv : Survey.t) (sts : list Student.t)
  (q : Question) :
  survey_inv sv -> safe_survey sv -> weights_convertible sv -> sts <> [] ->
  q ∈ Survey.get_questions sv -> bad_question sts q ->
  Survey.score_students sv sts = Ok 0%Q.
Proof.
  intros Hinv Hsafe _ Hne Hq Hbad.
  apply (score_students_bad sv sts q); try done.
  by apply safe_scores_or_invalid.
Qed.

Lemma survey_two_safe : safe_survey survey_two.
Proof.
  intros q c (k & Hk)%get_questions_elem Hc.
  apply init_lookup_elem in Hk.
  repeat (apply elem_of_cons in Hk as [->|Hk]); try (by apply elem_of_nil in Hk);
    (split; [vm_compute; done|]); intros ->; by vm_compute in Hc.
Qed.

Lemma score_students_defensive_witness :
  Survey.score_students survey_two
    [answer_all (Student.init 1 "A") 1 true; Student.init 2 "B"] = Ok 0%Q.
Proof.
  apply (score_students_defensive survey_two _ q_rate).
  - apply set_weight_inv, init_inv.
  - apply survey_two_safe.
  - apply survey_two_convertible.
  - discriminate.
  - apply get_questions_elem. exists 1. by vm_compute.
  - exists (Student.init 2 "B"). split; [|by vm_compute].
    apply list_elem_of_further, list_elem_of_here.
Defined.

(** On a survey that keeps its invariants, is safe and has weights that
    [float] converts, [score_students] returns a score for every
    non-empty list of students: it raises nothing, whether answers are
    missing, invalid or valid. *)
Theorem score_students_total (sv : Survey.t) (sts : list Student.t) :
  survey_inv sv -> safe_survey sv -> weights_convertible sv -> sts <> [] ->
  exists r, Survey.score_students sv sts = Ok r.
Proof. intros Hinv Hsafe _ Hne. by apply safe_scorable. Qed.

Lemma score_students_total_witness :
  exists r, Survey.score_students survey_two pair_students = Ok r.
Proof.
  apply (score_students_total survey_two pair_students).
  - apply set_weight_inv, init_inv.
  - apply survey_two_safe.
  - apply survey_two_convertible.
  - discriminate.
Defined.

(** ** [score_grouping] *)

Lemma grouping_loop_mean (sv : Survey.t) (groups : list Group.t)
  (total lo hi : Q) :
  Forall (fun g => exists s, Survey.score_students sv (Group.get_members g) = Ok s /\
                             (lo <= s)%Q /\ (s <= hi)%Q) groups ->
  exists t, Survey.grouping_loop sv groups total = Ok t /\
            (total + lo * float_of_len (length groups) <= t)%Q /\
            (t <= total + hi * float_of_len (length groups))%Q.
Proof.
  intros F. revert total.
  induction F as [|g rest (s & Hs & L & H) _ IH]; intros total; simpl.
  - exists total. split; [done|]. change (float_of_len 0) with 0%Q. split; lra.
  - rewrite Hs, bind_Ok. destruct (IH (total + s)%Q) as (t & -> & T0 & T1).
    exists t. split; [done|]. rewrite float_of_len_S. split; lra.
Qed.

Lemma grouping_loop_Ok (sv : Survey.t) (groups : list Group.t) (total t : Q) :
  Survey.grouping_loop sv groups total = Ok t ->
  Forall (fun g => exists s, Survey.score_students sv (Group.get_members g) = Ok s)
    groups.
Proof.
  revert total. induction groups as [|g rest IH]; intros total; simpl;
    [constructor|].
  destruct (Survey.score_students sv (Group.get_members g)) as [s|e] eqn:Es;
    rewrite ?bind_Ok, ?bind_Raise; [|done].
  intros H. constructor; [by exists s|by apply (IH _ H)].
Qed.

Lemma mean_range (t lo hi : Q) (n : nat) :
  n <> 0%nat ->
  (lo * float_of_len n <= t)%Q -> (t <= hi * float_of_len n)%Q ->
  (lo <= t / float_of_len n)%Q /\ (t / float_of_len n <= hi)%Q.
Proof.
  intros Hn H0 H1. pose proof (float_of_len_pos n Hn). split.
  - by apply Qle_shift_div_l.
  - by apply Qle_shift_div_r.
Qed.

(** The loop adds the scores of the groups to [total], in the order of
    the groups. *)
Lemma grouping_loop_accumulate (sv : Survey.t) (groups : list Group.t)
  (xs : list Q) (total : Q) :
  group_scores sv groups xs ->
  Survey.grouping_loop sv groups total = Ok (accumulate xs total).
Proof.
  intros F. revert total.
  induction F as [|g x groups xs Hg _ IH]; intros total; simpl; [done|].
  rewrite Hg, bind_Ok. apply IH.
Qed.

Lemma grouping_loop_scores (sv : Survey.t) (groups : list Group.t)
  (total t : Q) :
  Survey.grouping_loop sv groups total = Ok t ->
  exists xs, group_scores sv groups xs.
Proof.
  intros H. apply grouping_loop_Ok in H.
  induction H as [|g groups [x Hx] _ [xs IH]]; [exists []; constructor|].
  exists (x :: xs). by constructor.
Qed.

(** The loop raises what [score_students] raises for a group. *)
Lemma grouping_loop_Raise (sv : Survey.t) (groups : list Group.t)
  (total : Q) (e : exn) :
  Survey.grouping_loop sv groups total = Raise e ->
  exists g, g ∈ groups /\
            Survey.score_students sv (Group.get_members g) = Raise e.
Proof.
  revert total. induction groups as [|g rest IH]; intros total; simpl; [done|].
  destruct (Survey.score_students sv (Group.get_members g)) as [s|e'] eqn:Es;
    rewrite ?bind_Ok, ?bind_Raise.
  - intros (g' & Hg' & He)%IH. exists g'. split; [by right|done].
  - intros [= ->]. exists g. split; [left|done].
Qed.

(** [score_grouping] is the average of the scores of the groups: for a
    grouping with a group, when [score_students] returns the scores [xs]
    for the groups, it returns these scores, added up from 0 in the order
    of the groups, over the number of groups; it returns a score in this
    case only; and an exception that it raises is one that
    [score_students] raises for a group. *)
Theorem score_grouping_average (sv : Survey.t) (grouping : Grouping.t) :
  Grouping.get_groups grouping <> [] ->
  (forall xs, group_scores sv (Grouping.get_groups grouping) xs ->
     Survey.score_grouping sv grouping
     = Ok (accumulate xs 0 / float_of_len (Grouping.len grouping))%Q) /\
  (forall r, Survey.score_grouping sv grouping = Ok r ->
     exists xs, group_scores sv (Grouping.get_groups grouping) xs) /\
  (forall e, Survey.score_grouping sv grouping = Raise e ->
     exists g, g ∈ Grouping.get_groups grouping /\
               Survey.score_students sv (Group.get_members g) = Raise e).
Proof.
  intros Hne. unfold Survey.score_grouping, Grouping.len. simpl.
  destruct (Nat.eqb_spec (length (Grouping.get_groups grouping)) 0) as [E|E];
    [by destruct (Grouping.get_groups grouping)|].
  split; [|split].
  - intros xs Hxs. rewrite (grouping_loop_accumulate sv _ xs 0%Q Hxs), bind_Ok.
    by rewrite py_div_ok by (by apply float_of_len_nonzero).
  - intros r.
    destruct (Survey.grouping_loop sv (Grouping.get_groups grouping) 0%Q)
      as [t|e] eqn:El; rewrite ?bind_Ok, ?bind_Raise; [|done].
    intros _. by apply (grouping_loop_scores sv _ 0%Q t).
  - intros e.
    destruct (Survey.grouping_loop sv (Grouping.get_groups grouping) 0%Q)
      as [t|e'] eqn:El; rewrite ?bind_Ok, ?bind_Raise.
    + by rewrite py_div_ok by (by apply float_of_len_nonzero).
    + intros [= ->]. by apply (grouping_loop_Raise sv _ 0%Q).
Qed.

(** When every weight of the survey lies between 0 and [W], and the
    number of questions times [W] and the number of groups times [W] are
    whole numbers that a float holds exactly, so that no product or sum of
    the loops is rounded above its bound, a score that [score_grouping]
    returns lies between 0 and [W], and the score of a grouping without
    groups is 0. *)
Theorem score_grouping_range (sv : Survey.t) (grouping : Grouping.t) (r : Q)
  (W : Z) :
  0 <= W ->
  float_exact (Z.of_nat (Survey.len sv) * W) ->
  float_exact (Z.of_nat (Grouping.len grouping) * W) ->
  weights_within sv W ->
  Survey.score_grouping sv grouping = Ok r ->
  (0 <= r)%Q /\ (r <= inject_Z W)%Q /\
  (Grouping.len grouping = 0%nat -> r = 0%Q).
Proof.
  intros HW _ _ Hw. unfold Survey.score_grouping, Grouping.len. simpl.
  assert (HWq : (0 <= inject_Z W)%Q)
    by (change 0%Q with (inject_Z 0); by rewrite <- Zle_Qle).
  destruct (Nat.eqb_spec (length (Grouping.get_groups grouping)) 0) as [E|E].
  { intros [= <-]. split; [apply Qle_refl|]. by split. }
  destruct (Survey.grouping_loop sv (Grouping.get_groups grouping) 0%Q)
    as [t|e] eqn:El; rewrite ?bind_Ok, ?bind_Raise; [|done].
  rewrite py_div_ok by (by apply float_of_len_nonzero). intros [= <-].
  assert (F : Forall (fun g => exists s,
                Survey.score_students sv (Group.get_members g) = Ok s /\
                (0 <= s)%Q /\ (s <= inject_Z W)%Q)
                (Grouping.get_groups grouping)).
  { eapply Forall_impl; [by eapply grouping_loop_Ok|].
    intros g [s Hs]. exists s. split; [done|].
    by apply (score_students_Ok_range sv (Group.get_members g) s W). }
  destruct (grouping_loop_mean sv _ 0%Q 0%Q (inject_Z W) F) as (t' & Ht' & T0 & T1).
  assert (t' = t) as -> by congruence.
  destruct (mean_range t 0 (inject_Z W)
              (length (Grouping.get_groups grouping)) E) as [M0 M1]; [lra..|].
  split; [done|]. split; [done|]. unfold Grouping.get_groups in E. done.
Qed.

Lemma score_grouping_average_witness :
  (forall xs, group_scores agree_survey (Grouping.get_groups two_groups) xs ->
     Survey.score_grouping agree_survey two_groups
     = Ok (accumulate xs 0 / float_of_len (Grouping.len two_groups))%Q) /\
  (forall r, Survey.score_grouping agree_survey two_groups = Ok r ->
     exists xs, group_scores agree_survey (Grouping.get_groups two_groups) xs) /\
  (forall e, Survey.score_grouping agree_survey two_groups = Raise e ->
     exists g, g ∈ Grouping.get_groups two_groups /\
               Survey.score_students agree_survey (Group.get_members g) = Raise e).
Proof. apply (score_grouping_average agree_survey two_groups). discriminate. Defined.

Lemma score_grouping_range_witness :
  exists r, Survey.score_grouping agree_survey two_groups = Ok r /\
            (0 <= r)%Q /\ (r <= inject_Z 1)%Q /\
            (Grouping.len two_groups = 0%nat -> r = 0%Q).
Proof.
  eexists. split; [vm_compute; reflexivity|].
  apply (score_grouping_range agree_survey two_groups _ 1).
  - lia.
  - by vm_compute.
  - by vm_compute.
  - intros k w. apply init_weights_one.
  - vm_compute. reflexivity.
Defined.

(** One group scores 1 and the other 0: the grouping scores 1/2. *)
Example score_grouping_two_groups :
  exists r, Survey.score_grouping agree_survey two_groups = Ok r /\ (r == 1 # 2)%Q.
Proof. eexists. split; [vm_compute; reflexivity|reflexivity]. Qed.

(** ** The homogeneous score as an average over pairs *)

Lemma sum_list_app (xs ys : list Q) :
  (sum_list (xs ++ ys) == sum_list xs + sum_list ys)%Q.
Proof.
  induction xs as [|x xs IH]; simpl; [by rewrite Qplus_0_l|].
  rewrite IH. by rewrite Qplus_assoc.
Qed.

Lemma pairs_length (l : list Answer) :
  (2 * length (pairs l) = length l * (length l - 1))%nat.
Proof.
  induction l as [|a l IH]; simpl; [done|].
  rewrite length_app, length_map. destruct l; simpl in *; lia.
Qed.

Lemma similarity_value_valid (q : Question) (a b : Answer) :
  question_pre q ->
  validate_answer q a = true -> validate_answer q b = true ->
  get_similarity q a b = Ok (similarity_value q (a, b)) /\
  similarity_value q (a, b) = similarity_value q (b, a) /\
  (0 <= similarity_value q (a, b))%Q /\ (similarity_value q (a, b) <= 1)%Q.
Proof.
  intros Hpre Va Vb.
  destruct (get_similarity_valid q a b Hpre Va Vb) as (r & E1 & E2 & B0 & B1).
  unfold similarity_value. simpl. by rewrite E1, E2.
Qed.

Lemma inner_loop_sum (q : Question) (a : Answer) (rest : list Answer)
  (st : Q * nat) :
  question_pre q -> validate_answer q a = true ->
  Forall (fun b => validate_answer q b = true) rest ->
  exists total,
    HomogeneousCriterion.inner_loop q a rest st
    = Ok (total, (st.2 + length rest)%nat) /\
    (total == st.1 + sum_list (map (similarity_value q) (map (pair a) rest)))%Q.
Proof.
  intros Hpre Va F. revert st.
  induction F as [|b rest Vb F IH]; intros [t c]; simpl.
  - exists t. rewrite Nat.add_0_r. split; [done|]. by rewrite Qplus_0_r.
  - destruct (similarity_value_valid q a b Hpre Va Vb) as (-> & _).
    rewrite bind_Ok.
    destruct (IH ((t + similarity_value q (a, b))%Q, S c)) as (total & -> & Ht).
    simpl in *. exists total. split; [f_equal; f_equal; lia|].
    rewrite Ht. by rewrite Qplus_assoc.
Qed.

Lemma outer_loop_sum (q : Question) (l : list Answer) (st : Q * nat) :
  question_pre q -> Forall (fun b => validate_answer q b = true) l ->
  exists total,
    HomogeneousCriterion.outer_loop q l st
    = Ok (total, (st.2 + length (pairs l))%nat) /\
    (total == st.1 + sum_list (map (similarity_value q) (pairs l)))%Q.
Proof.
  intros Hpre F. revert st.
  induction F as [|a rest Va F IH]; intros [t c]; simpl.
  - exists t. rewrite Nat.add_0_r. split; [done|]. by rewrite Qplus_0_r.
  - destruct (inner_loop_sum q a rest (t, c) Hpre Va F) as (t1 & Hi & Ht1).
    simpl in Hi, Ht1. rewrite Hi, bind_Ok.
    destruct (IH (t1, (c + length rest)%nat)) as (t2 & -> & Ht2).
    simpl in *. exists t2.
    split; [rewrite length_app, length_map; f_equal; f_equal; lia|].
    rewrite Ht2, Ht1, map_app, sum_list_app. by rewrite Qplus_assoc.
Qed.

Lemma homogeneous_pairs (q : Question) (l : list Answer) :
  question_pre q -> Forall (fun b => validate_answer q b = true) l ->
  (2 <= length l)%nat ->
  length (pairs l) <> 0%nat /\
  exists h,
    HomogeneousCriterion.score_answers q l = Ok h /\
    (h == sum_list (map (similarity_value q) (pairs l))
          / float_of_len (length (pairs l)))%Q.
Proof.
  intros Hpre F Hlen.
  assert (Hp : length (pairs l) <> 0%nat).
  { pose proof (pairs_length l). destruct l as [|a [|b l]]; simpl in *; lia. }
  split; [done|].
  unfold HomogeneousCriterion.score_answers.
  rewrite (check_answers_ok q l F), bind_Ok.
  destruct (Nat.eqb_spec (length l) 1); [lia|].
  destruct (outer_loop_sum q l (0%Q, 0%nat) Hpre F) as (total & -> & Ht).
  rewrite bind_Ok. simpl in *.
  rewrite py_div_ok by (by apply float_of_len_nonzero).
  eexists. split; [done|]. by rewrite Ht, Qplus_0_l.
Qed.



Lemma sum_list_unit_bounds (xs : list Q) :
  Forall (fun x => (0 <= x)%Q /\ (x <= 1)%Q) xs ->
  (0 <= sum_list xs)%Q /\ (sum_list xs <= float_of_len (length xs))%Q.
Proof.
  induction 1 as [|x xs [H0 H1] _ [IH0 IH1]]; simpl.
  - change (float_of_len 0) with 0%Q. split; lra.
  - rewrite float_of_len_S. split; lra.
Qed.

Lemma sum_list_all_one (xs : list Q) :
  Forall (fun x => (0 <= x)%Q /\ (x <= 1)%Q) xs ->
  (sum_list xs == float_of_len (length xs))%Q <-> Forall (fun x => (x == 1)%Q) xs.
Proof.
  induction 1 as [|x xs [H0 H1] F IH]; simpl.
  - split; [constructor|reflexivity].
  - destruct (sum_list_unit_bounds xs F) as [B0 B1].
    rewrite float_of_len_S, Forall_cons, <- IH. split.
    + intros H. split; lra.
    + intros [Hx Hs]. lra.
Qed.

Lemma sum_list_all_zero (xs : list Q) :
  Forall (fun x => (0 <= x)%Q /\ (x <= 1)%Q) xs ->
  (sum_list xs == 0)%Q <-> Forall (fun x => (x == 0)%Q) xs.
Proof.
  induction 1 as [|x xs [H0 H1] F IH]; simpl.
  - split; [constructor|reflexivity].
  - destruct (sum_list_unit_bounds xs F) as [B0 B1].
    rewrite Forall_cons, <- IH. split.
    + intros H. split; lra.
    + intros [Hx Hs]. lra.
Qed.

Lemma elem_of_pairs (l : list Answer) (a b : Answer) :
  (a, b) ∈ pairs l -> a ∈ l /\ b ∈ l.
Proof.
  induction l as [|x l IH]; simpl; [by intros ?%elem_of_nil|].
  intros [(y & [= -> ->] & Hy)%list_elem_of_fmap|H]%elem_of_app.
  - split; [left|by right].
  - destruct (IH H). split; by right.
Qed.

Lemma pairs_all_equal (l : list Answer) :
  Forall (fun p => py_eq (content p.1) (content p.2) = true) (pairs l) <->
  forall a b, a ∈ l -> b ∈ l -> py_eq (content a) (content b) = true.
Proof.
  split.
  - induction l as [|x l IH]; simpl; [by intros _ a b ?%elem_of_nil|].
    intros [Hx Hl]%Forall_app a b Ha Hb.
    rewrite Forall_fmap, Forall_forall in Hx. simpl in Hx.
    apply elem_of_cons in Ha as [->|Ha]; apply elem_of_cons in Hb as [->|Hb].
    + apply py_eq_refl.
    + by apply Hx.
    + rewrite py_eq_sym. by apply Hx.
    + by apply IH.
  - intros H. apply Forall_forall. intros [a b] [Ha Hb]%elem_of_pairs.
    by apply H.
Qed.

Lemma single_choice_value (q : Question) (p : Answer * Answer) :
  single_choice q ->
  similarity_value q p
  = if py_eq (content p.1) (content p.2) then 1%Q else 0%Q.
Proof.
  unfold similarity_value.
  destruct q; simpl; try done; intros _;
    unfold MultipleChoiceQuestion.get_similarity; by destruct (py_eq _ _).
Qed.

(** For a multiple-choice or yes/no question and two or more valid
    answers, the homogeneous criterion returns 1 exactly when all answers
    have the same content, and 0 exactly when no two of them have. *)
Theorem homogeneous_single_choice (q : Question) (l : list Answer) :
  single_choice q -> Forall (fun b => validate_answer q b = true) l ->
  (2 <= length l)%nat ->
  exists h,
    score_answers Homogeneous q l = Ok h /\
    ((h == 1)%Q <->
     forall a b, a ∈ l -> b ∈ l -> py_eq (content a) (content b) = true) /\
    ((h == 0)%Q <->
     Forall (fun p => py_eq (content p.1) (content p.2) = false) (pairs l)).
Proof.
  intros Hq F Hlen.
  assert (Hpre : question_pre q) by (by destruct q).
  destruct (homogeneous_pairs q l Hpre F Hlen) as (Hn & h & Hh & Heq).
  exists h. split; [done|].
  pose proof (float_of_len_pos _ Hn) as Hpos.
  assert (Hb : Forall (fun x => (0 <= x)%Q /\ (x <= 1)%Q)
                 (map (similarity_value q) (pairs l))).
  { apply Forall_fmap, Forall_forall. intros p _. simpl.
    rewrite (single_choice_value q p Hq). destruct (py_eq _ _); split; lra. }
  pose proof (sum_list_all_one _ Hb) as H1.
  pose proof (sum_list_all_zero _ Hb) as H0.
  rewrite length_map in H1. rewrite Forall_fmap in H0, H1.
  set (S := sum_list (map (similarity_value q) (pairs l))) in *.
  set (n := float_of_len (length (pairs l))) in *.
  assert (Hone : (h == 1)%Q <-> (S == n)%Q).
  { rewrite Heq. split; intros H.
    - rewrite <- (Qmult_div_r S n) by lra. rewrite H. ring.
    - rewrite H. apply Qmult_inv_r. lra. }
  assert (Hzero : (h == 0)%Q <-> (S == 0)%Q).
  { rewrite Heq. split; intros H.
    - rewrite <- (Qmult_div_r S n) by lra. rewrite H. ring.
    - rewrite H. unfold Qdiv. ring. }
  split.
  - rewrite Hone, H1, <- pairs_all_equal.
    apply Forall_iff. intros p. simpl. rewrite (single_choice_value q p Hq).
    destruct (py_eq _ _); split; (done || (intros H; lra) || discriminate).
  - rewrite Hzero, H0.
    apply Forall_iff. intros p. simpl. rewrite (single_choice_value q p Hq).
    destruct (py_eq _ _); split; (done || (intros H; lra) || discriminate).
Qed.

Lemma homogeneous_single_choice_witness :
  exists h,
    score_answers Homogeneous yn [ansT; ansT; ansF] = Ok h /\
    ((h == 1)%Q <->
     forall a b, a ∈ [ansT; ansT; ansF] -> b ∈ [ansT; ansT; ansF] ->
                 py_eq (content a) (content b) = true) /\
    ((h == 0)%Q <->
     Forall (fun p => py_eq (content p.1) (content p.2) = false)
       (pairs [ansT; ansT; ansF])).
Proof.
  apply (homogeneous_single_choice yn [ansT; ansT; ansF]);
    [exact I | repeat constructor | simpl; lia].
Defined.

(** ** The order of the answers and of the students *)

Lemma result_equiv_refl (r : result Q) : result_equiv r r.
Proof. destruct r; simpl; [reflexivity|done]. Qed.

Lemma sum_list_perm (xs ys : list Q) :
  xs ≡ₚ ys -> (sum_list xs == sum_list ys)%Q.
Proof.
  induction 1 as [|x xs ys _ IH|x y xs|xs ys zs _ IH1 _ IH2]; simpl.
  - reflexivity.
  - by rewrite IH.
  - ring.
  - by rewrite IH1.
Qed.

Lemma Forall_valid_perm (q : Question) (l l' : list Answer) :
  l ≡ₚ l' -> Forall (fun b => validate_answer q b = true) l ->
  Forall (fun b => validate_answer q b = true) l'.
Proof. intros Hp. by rewrite Hp. Qed.

Lemma pair_sum_perm (q : Question) (l l' : list Answer) :
  question_pre q -> l ≡ₚ l' ->
  Forall (fun b => validate_answer q b = true) l ->
  (sum_list (map (similarity_value q) (pairs l))
   == sum_list (map (similarity_value q) (pairs l')))%Q.
Proof.
  intros Hpre. induction 1 as [|x l l' Hp IH|x y l|l l' l'' Hp IH1 Hp' IH2];
    intros F.
  - reflexivity.
  - apply Forall_cons in F as [Vx F]. simpl.
    rewrite !map_app, !sum_list_app, (IH F).
    apply Qplus_inj_r, sum_list_perm. by rewrite Hp.
  - apply Forall_cons in F as [Vy F]. apply Forall_cons in F as [Vx F].
    simpl. rewrite !map_app, !sum_list_app. simpl.
    destruct (similarity_value_valid q x y Hpre Vx Vy) as (_ & -> & _).
    ring.
  - rewrite (IH1 F). apply IH2. by apply (Forall_valid_perm q l l').
Qed.

Lemma homogeneous_permutation (q : Question) (l l' : list Answer) :
  single_choice q -> l ≡ₚ l' ->
  result_equiv (HomogeneousCriterion.score_answers q l)
    (HomogeneousCriterion.score_answers q l').
Proof.
  intros Hq Hp. assert (Hpre : question_pre q) by (by destruct q).
  destruct (check_answers_cases q l) as [[Hc F]|[Hc E]].
  - pose proof (Forall_valid_perm q l l' Hp F) as F'.
    destruct (decide (2 <= length l)%nat) as [Hlen|Hlen].
    + destruct (homogeneous_pairs q l Hpre F Hlen) as (Hn & h & -> & Hh).
      destruct (homogeneous_pairs q l' Hpre F'
                  ltac:(by rewrite <- Hp)) as (Hn' & h' & -> & Hh').
      simpl. rewrite Hh, Hh', (pair_sum_perm q l l' Hpre Hp F).
      assert (length (pairs l) = length (pairs l')) as ->; [|reflexivity].
      pose proof (pairs_length l). pose proof (pairs_length l').
      rewrite (Permutation_length Hp) in *. lia.
    + assert (l' = l) as ->; [|apply result_equiv_refl].
      destruct l as [|a [|b l]]; simpl in Hlen; try lia.
      * by apply Permutation_nil_l in Hp.
      * by apply Permutation_singleton_l in Hp.
  - assert (E' : Exists (fun a => validate_answer q a = false) l')
      by (by rewrite <- Hp).
    unfold HomogeneousCriterion.score_answers.
    by rewrite Hc, (check_answers_invalid q l' E').
Qed.

Lemma key_count_perm (k : key) (l l' : list Answer) :
  l ≡ₚ l' -> key_count k l = key_count k l'.
Proof.
  unfold key_count.
  induction 1 as [|x l l' _ IH|x y l|l l' l'' _ IH1 _ IH2]; simpl.
  - done.
  - destruct (match content x with VAtom a => _ | VList _ => _ end); simpl;
      by rewrite IH.
  - destruct (match content x with VAtom a => _ | VList _ => _ end),
      (match content y with VAtom a => _ | VList _ => _ end); simpl; done.
  - by rewrite IH1.
Qed.

Lemma hashable_cases (l : list Answer) :
  Forall (fun a => hashable (content a)) l \/
  Exists (fun a => ~ hashable (content a)) l.
Proof.
  induction l as [|a l [IH|IH]].
  - left. constructor.
  - destruct (content a) as [x|m] eqn:E.
    + left. constructor; [by rewrite E|done].
    + right. left. rewrite E. simpl. tauto.
  - right. by right.
Qed.

Lemma lonely_member_permutation (q : Question) (l l' : list Answer) :
  l ≡ₚ l' ->
  LonelyMemberCriterion.score_answers q l
  = LonelyMemberCriterion.score_answers q l'.
Proof.
  intros Hp.
  destruct (check_answers_cases q l) as [[Hc F]|[Hc E]].
  - pose proof (Forall_valid_perm q l l' Hp F) as F'.
    destruct (decide (2 <= length l)%nat) as [Hlen|Hlen].
    + assert (Hlen' : (2 <= length l')%nat) by (by rewrite <- Hp).
      destruct (hashable_cases l) as [H|H].
      * assert (H' : Forall (fun a => hashable (content a)) l')
          by (by rewrite <- Hp).
        destruct (lonely_member_counts q l F H ltac:(lia)) as [[[k Hk] ->]|[Hk ->]];
          destruct (lonely_member_counts q l' F' H' ltac:(lia))
            as [[[k' Hk'] ->]|[Hk' ->]]; try done.
        -- exfalso. apply (Hk' k). by rewrite <- (key_count_perm k l l' Hp).
        -- exfalso. apply (Hk k'). by rewrite (key_count_perm k' l l' Hp).
      * assert (H' : Exists (fun a => ~ hashable (content a)) l')
          by (by rewrite <- Hp).
        pose proof (lonely_member_unhashable q l F Hlen H) as E1.
        pose proof (lonely_member_unhashable q l' F' Hlen' H') as E2.
        simpl in E1, E2. by rewrite E1, E2.
    + assert (l' = l) as ->; [|done].
      destruct l as [|a [|b l]]; simpl in Hlen; try lia.
      * by apply Permutation_nil_l in Hp.
      * by apply Permutation_singleton_l in Hp.
  - assert (E' : Exists (fun a => validate_answer q a = false) l')
      by (by rewrite <- Hp).
    unfold LonelyMemberCriterion.score_answers.
    by rewrite Hc, (check_answers_invalid q l' E').
Qed.

Lemma score_answers_perm (c : Criterion) (q : Question) (l l' : list Answer) :
  exact_score c q -> l ≡ₚ l' ->
  result_equiv (score_answers c q l) (score_answers c q l').
Proof.
  intros Hx Hp.
  assert (Hl : result_equiv (score_answers LonelyMember q l)
                 (score_answers LonelyMember q l')).
  { simpl. rewrite (lonely_member_permutation q l l' Hp).
    apply result_equiv_refl. }
  destruct Hx as [->|Hq]; [done|]. destruct c; simpl; [| |done].
  - by apply homogeneous_permutation.
  - unfold HeterogeneousCriterion.score_answers.
    pose proof (homogeneous_permutation q l l' Hq Hp) as H.
    destruct (HomogeneousCriterion.score_answers q l) as [h|e],
      (HomogeneousCriterion.score_answers q l') as [h'|e'];
      simpl in *; try done. by rewrite H.
Qed.

(** Where no rounding is involved, the score of a criterion does not
    depend on the order of the answers: two lists with the same answers
    in different orders get the same outcome from the lonely-member
    criterion on any question, and from the homogeneous and the
    heterogeneous criterion on a multiple-choice or yes/no question. *)
Theorem score_answers_permutation (c : Criterion) (q : Question)
  (l l' : list Answer) :
  exact_score c q -> l ≡ₚ l' ->
  result_equiv (score_answers c q l) (score_answers c q l').
Proof. apply score_answers_perm. Qed.

Lemma score_answers_permutation_witness :
  result_equiv (score_answers Heterogeneous yn [ansT; ansT; ansF])
    (score_answers Heterogeneous yn [ansT; ansF; ansT]).
Proof.
  apply (score_answers_permutation Heterogeneous yn); [right; exact I|].
  apply perm_skip, Permutation_swap.
Defined.

Lemma get_ans_cases (sts : list Student.t) (q : Question) :
  (Survey._get_ans sts q = Some (gathered sts q) /\
   forall s, s ∈ sts -> is_Some (Student.get_answer s q)) \/
  (Survey._get_ans sts q = None /\
   exists s, s ∈ sts /\ Student.get_answer s q = None).
Proof.
  induction sts as [|s rest [[E H]|[E (s' & Hs' & Hn)]]].
  - left. split; [done|]. by intros s ?%elem_of_nil.
  - destruct (Student.get_answer s q) as [a|] eqn:Ea.
    + left. split.
      * apply get_ans_gathered. intros s' [->|Hs']%elem_of_cons; [by eexists|].
        by apply H.
      * intros s' [->|Hs']%elem_of_cons; [by eexists|]. by apply H.
    + right. split; [simpl; by rewrite Ea|]. exists s. split; [left|done].
  - right. split.
    + apply (get_ans_missing _ q s'); [by right|done].
    + exists s'. split; [by right|done].
Qed.

Lemma get_ans_perm (sts sts' : list Student.t) (q : Question) :
  sts ≡ₚ sts' ->
  (exists l l', Survey._get_ans sts q = Some l /\
                Survey._get_ans sts' q = Some l' /\ l ≡ₚ l') \/
  (Survey._get_ans sts q = None /\ Survey._get_ans sts' q = None).
Proof.
  intros Hp.
  destruct (get_ans_cases sts q) as [[E H]|[E (s & Hs & Hn)]].
  - left. exists (gathered sts q), (gathered sts' q). split; [done|]. split.
    + apply get_ans_gathered. intros s Hs. apply H. by rewrite Hp.
    + unfold gathered. by rewrite Hp.
  - right. split; [done|]. apply (get_ans_missing _ q s); [by rewrite <- Hp|done].
Qed.

Lemma score_loop_perm (sv : Survey.t) (sts sts' : list Student.t)
  (qs : list Question) (total total' : Q) :
  (forall q c, q ∈ qs -> Survey._criteria sv !! question_id q = Some c ->
               exact_score c q) ->
  sts ≡ₚ sts' ->
  (total == total')%Q ->
  result_equiv (Survey.score_loop sv sts qs total)
    (Survey.score_loop sv sts' qs total').
Proof.
  intros Hx Hp. revert total total'.
  induction qs as [|q rest IH]; intros total total' Ht; simpl.
  - unfold py_div. destruct (Qeq_bool _ 0); simpl; [done|]. by rewrite Ht.
  - destruct (get_ans_perm sts sts' q Hp) as [(l & l' & -> & -> & Hl)|[-> ->]];
      [|simpl; reflexivity].
    unfold Survey._get_criterion, Survey._get_weight, Survey.py_getitem.
    destruct (Survey._criteria sv !! question_id q) as [c|] eqn:Ec;
      rewrite ?bind_Ok, ?bind_Raise; [|done].
    pose proof (score_answers_perm c q l l' (Hx q c ltac:(left) Ec) Hl) as Hs.
    destruct (score_answers c q l) as [s|e], (score_answers c q l') as [s'|e'];
      simpl in Hs; try done.
    rewrite !bind_Ok.
    destruct (Survey._weights sv !! question_id q) as [w|];
      rewrite ?bind_Ok, ?bind_Raise; [|done].
    apply IH; [intros q' c' Hq'; apply Hx; by right|].
    by rewrite Ht, Hs.
Qed.

(** Where no rounding is involved, the score of a list of students does
    not depend on their order: on a survey of which every question is
    multiple choice or yes/no, or has the lonely-member criterion, two
    lists with the same students in different orders get the same outcome
    from [score_students]. *)
Theorem score_students_permutation (sv : Survey.t) (sts sts' : list Student.t) :
  exact_survey sv -> sts ≡ₚ sts' ->
  result_equiv (Survey.score_students sv sts) (Survey.score_students sv sts').
Proof.
  intros Hx Hp. unfold Survey.score_students.
  destruct (size (Survey._questions sv) =? 0)%nat; [simpl; reflexivity|].
  pose proof (score_loop_perm sv sts sts' (Survey.get_questions sv) 0%Q 0%Q
                Hx Hp ltac:(reflexivity)) as H.
  destruct (Survey.score_loop sv sts (Survey.get_questions sv) 0%Q) as [r|e],
    (Survey.score_loop sv sts' (Survey.get_questions sv) 0%Q) as [r'|e'];
    simpl in H; try done.
  subst e'. destruct e; simpl; done.
Qed.

Lemma score_students_permutation_witness :
  result_equiv
    (Survey.score_students agree_survey four_students)
    (Survey.score_students agree_survey (reverse four_students)).
Proof.
  apply (score_students_permutation agree_survey).
  - intros q c (k & Hk)%get_questions_elem _. apply init_lookup_elem in Hk.
    apply list_elem_of_singleton in Hk. subst q. right. exact I.
  - symmetry. apply reverse_Permutation.
Defined.

(** ** The lonely-member criterion on hashable and on list contents *)

(** For a question whose valid answers are hashable (numeric, yes/no,
    multiple choice among hashable options) and a non-empty list of valid
    answers, the lonely-member criterion returns 0 exactly when some
    content is held by one answer only, and 1 exactly when every content
    is held by two answers or more; contents are compared with [==]. *)
Theorem lonely_member_score (q : Question) (answers : list Answer) :
  hashable_question q -> answers <> [] ->
  Forall (fun a => validate_answer q a = true) answers ->
  (score_answers LonelyMember q answers = Ok 0%Q <->
   exists a, a ∈ answers /\ occurrences (content a) answers = 1%nat) /\
  (score_answers LonelyMember q answers = Ok 1%Q <->
   forall a, a ∈ answers -> (2 <= occurrences (content a) answers)%nat).
Proof. apply lonely_member_hashable_question. Qed.

Lemma lonely_member_score_witness :
  (score_answers LonelyMember yn [ansT; ansT; ansF] = Ok 0%Q <->
   exists a, a ∈ [ansT; ansT; ansF] /\
             occurrences (content a) [ansT; ansT; ansF] = 1%nat) /\
  (score_answers LonelyMember yn [ansT; ansT; ansF] = Ok 1%Q <->
   forall a, a ∈ [ansT; ansT; ansF] ->
             (2 <= occurrences (content a) [ansT; ansT; ansF])%nat).
Proof.
  apply (lonely_member_score yn [ansT; ansT; ansF]);
    [exact I | discriminate | repeat constructor].
Defined.

(** On two or more valid answers of which one has a list as content, as
    every valid answer to a checkbox question has, the lonely-member
    criterion raises [TypeError]: a list cannot be a key of [counts]. *)
Theorem lonely_member_list_content (q : Question) (answers : list Answer) :
  Forall (fun a => validate_answer q a = true) answers ->
  (2 <= length answers)%nat ->
  Exists (fun a => ~ hashable (content a)) answers ->
  score_answers LonelyMember q answers = Raise TypeError.
Proof. apply lonely_member_unhashable. Qed.

Lemma lonely_member_list_content_witness :
  score_answers LonelyMember cb [ans_abc; ans_cbd] = Raise TypeError.
Proof.
  apply (lonely_member_list_content cb [ans_abc; ans_cbd]).
  - repeat constructor.
  - simpl. lia.
  - left. simpl. tauto.
Defined.

(** ** The empty list of answers *)

(** On the empty list of answers, which the precondition of
    [score_answers] excludes, the homogeneous and the heterogeneous
    criterion raise [ZeroDivisionError], there being no pair to average
    over, and the lonely-member criterion returns 1. *)
Example score_answers_empty (q : Question) :
  score_answers Homogeneous q [] = Raise ZeroDivisionError /\
  score_answers Heterogeneous q [] = Raise ZeroDivisionError /\
  score_answers LonelyMember q [] = Ok 1%Q.
Proof. by repeat split. Qed.
